(** * HelloImageProject: bilateral denoise + unsharp mask pipeline

    A shallow embedding of [main.py].  The program is a straight line of
    calls into OpenCV ([cv2]) and NumPy ([np]) glued by path handling from
    [os.path]; the embedding keeps that shape:

    - [np]        : the NumPy array operations the sharpener uses, with
                    float32 arithmetic written out over the Standard
                    Library's [spec_float] (binary32: 24 bits, emax 128);
    - [posixpath] : [os.path.basename], [splitext] and [join] as CPython's
                    [posixpath] module defines them;
    - [OpenCV]    : the four [cv2] entry points the program calls, as an
                    interface whose documented contract is a separate class;
    - [FileSystem]: regular files, links (two paths naming one file) and
                    directories, with [os.path.isfile], [os.makedirs] and
                    the reads and writes of [cv2] going through the links;
    - a state-and-exception monad over a [World] (file system, standard
      output, log of library calls) in which [bilateral_denoise],
      [unsharp_mask], [process_image] and the script as a whole are written
      as in the source. *)

From Stdlib Require Import ZArith List Bool Lia Ascii String Strings.Byte DecimalString.
From Stdlib Require Import Floats.SpecFloat.
From stdpp Require Import base option list strings gmap.

Local Open Scope Z_scope.

(** ** NumPy: float32 scalars *)

Module np.

(** [np.float32] is IEEE binary32; [np.float64] (a Python [float]) is
    binary64.  Both are [spec_float] values, told apart by the precision
    the operations are instantiated with. *)
Definition prec32 : Z := 24.
Definition emax32 : Z := 128.

Definition f32_add : spec_float -> spec_float -> spec_float := SFadd prec32 emax32.
Definition f32_sub : spec_float -> spec_float -> spec_float := SFsub prec32 emax32.
Definition f32_mul : spec_float -> spec_float -> spec_float := SFmul prec32 emax32.

(** Conversion of an integer element to float32 (round to nearest even;
    exact below 2^24, so exact on every 8- and 16-bit sample). *)
Definition f32_of_Z (z : Z) : spec_float :=
  binary_normalize prec32 emax32 z 0 false.

(** Conversion of a Python float (binary64) to float32, as NumPy does with
    a Python scalar that meets a float32 array. *)
Definition f32_of_f64 (x : spec_float) : spec_float :=
  match x with
  | S754_finite s m e => binary_round prec32 emax32 s m e
  | _ => x
  end.

(** [np.maximum] and [np.minimum] on scalars: a NaN operand gives NaN. *)
Definition maximum (x y : spec_float) : spec_float :=
  match SFcompare x y with
  | None => S754_nan
  | Some Lt => y
  | Some _ => x
  end.

Definition minimum (x y : spec_float) : spec_float :=
  match SFcompare x y with
  | None => S754_nan
  | Some Gt => y
  | Some _ => x
  end.

(** [np.clip(x, lo, hi)] is [minimum(maximum(x, lo), hi)]. *)
Definition clip1 (lo hi x : spec_float) : spec_float :=
  minimum (maximum x lo) hi.

(** Truncation toward zero of a finite float, the C conversion that
    [astype] of an integer type performs. *)
Definition trunc (x : spec_float) : Z :=
  match x with
  | S754_finite s m e =>
      let a := match e with
               | Zneg p => Z.shiftr (Zpos m) (Zpos p)
               | _ => Z.shiftl (Zpos m) e
               end in
      if s then - a else a
  | _ => 0
  end.

(** One element of [astype(np.uint8)].  NaN and the infinities have no
    defined conversion in C (NumPy warns "invalid value encountered in
    cast"); the stored byte is taken to be 0 there.  Whatever is stored
    is a byte, hence the reduction modulo 256. *)
Definition u8_of_f32 (x : spec_float) : Z := trunc x mod 256.

End np.

(** The Python float literal [1.0] (binary64). *)
Definition py_1_0 : spec_float := S754_finite false 4503599627370496 (-52).

(** A Python number handed to OpenCV where it takes a C [double] (the
    sigmas of the two filters): an [int] or a [float].  An integer literal
    stands for the [int]. *)
Inductive number :=
| PyInt (z : Z)
| PyFloat (x : spec_float).

Coercion PyInt : Z >-> number.

(** [0 < x] *)
Definition is_positive (x : number) : bool :=
  match x with
  | PyInt z => 0 <? z
  | PyFloat f => SFltb (S754_zero false) f
  end.

(** ** NumPy: arrays *)

Inductive dtype := uint8 | uint16 | float32.

(** [str(arr.dtype)] *)
Definition dtype_name (t : dtype) : string :=
  match t with
  | uint8 => "uint8"
  | uint16 => "uint16"
  | float32 => "float32"
  end.

(** An n-dimensional array: its shape, its element type and its elements
    in row-major order (for an image of shape [(h, w, 3)]: rows of pixels,
    three interleaved channels per pixel).  The same record holds integer
    samples ([A := Z]) and float32 samples ([A := spec_float]). *)
Record ndarray (A : Type) := NdArray {
  shape : list nat;
  dtype_of : dtype;
  data : list A
}.
Arguments NdArray {A} _ _ _.
Arguments shape {A} _.
Arguments dtype_of {A} _.
Arguments data {A} _.

(** Exceptions the program raises or lets through. *)
Inductive exn :=
| FileNotFoundError (msg : string)
| FileExistsError (msg : string)
| OSError (msg : string)
| ValueError (msg : string)
| cv2_error (msg : string).

Inductive result (A : Type) :=
| Ok (a : A)
| Raise (e : exn).
Arguments Ok {A} _.
Arguments Raise {A} _.

Module nd.

(** [arr.astype(np.float32)] on an integer array *)
Definition astype_float32 (a : ndarray Z) : ndarray spec_float :=
  NdArray (shape a) float32 (np.f32_of_Z <$> data a).

(** [arr.astype(np.uint8)] on a float32 array *)
Definition astype_uint8 (a : ndarray spec_float) : ndarray Z :=
  NdArray (shape a) uint8 (np.u8_of_f32 <$> data a).

(** Element-wise binary operation of two float32 arrays.  With equal
    shapes NumPy pairs the elements in order.  Operands of different
    shapes would go through broadcasting, which the program never relies
    on (OpenCV returns an array of the shape it was given); that case is
    not modelled beyond the error NumPy reports when shapes mismatch. *)
Definition elementwise (f : spec_float -> spec_float -> spec_float)
    (a b : ndarray spec_float) : result (ndarray spec_float) :=
  if decide (shape a = shape b)
  then Ok (NdArray (shape a) float32 (zip_with f (data a) (data b)))
  else Raise (ValueError "operands could not be broadcast together").

Definition sub := elementwise np.f32_sub.
Definition add := elementwise np.f32_add.

(** [scalar * arr] for a Python float scalar and a float32 array: the
    scalar is converted to float32 and the product is taken in float32. *)
Definition scalar_mul (k : spec_float) (a : ndarray spec_float)
    : ndarray spec_float :=
  NdArray (shape a) float32 (np.f32_mul (np.f32_of_f64 k) <$> data a).

(** [np.clip(arr, lo, hi)] with Python integer bounds on a float32 array *)
Definition clip (a : ndarray spec_float) (lo hi : Z) : ndarray spec_float :=
  NdArray (shape a) float32
          (np.clip1 (np.f32_of_Z lo) (np.f32_of_Z hi) <$> data a).

End nd.

(** Number of elements a shape announces. *)
Definition shape_size (s : list nat) : nat := foldr Nat.mul 1%nat s.

Definition in_range (t : dtype) (x : Z) : bool :=
  match t with
  | uint8 => (0 <=? x) && (x <=? 255)
  | uint16 => (0 <=? x) && (x <=? 65535)
  | float32 => true
  end.

(** A well-formed integer array: as many samples as the shape announces,
    each within the range of the element type. *)
Definition well_formed (a : ndarray Z) : bool :=
  (length (data a) =? shape_size (shape a))%nat
  && forallb (in_range (dtype_of a)) (data a).

(** A valid 8-bit colour image: shape [(h, w, 3)], element type uint8. *)
Definition is_bgr8 (a : ndarray Z) : bool :=
  match shape a, dtype_of a with
  | [_; _; 3%nat], uint8 => well_formed a
  | _, _ => false
  end.

(** The sample of channel [c] of the pixel in row [i], column [j]. *)
Definition sample (a : ndarray Z) (i j c : nat) : option Z :=
  match shape a with
  | [h; w; ch] =>
      if decide (i < h ∧ j < w ∧ c < ch)%nat
      then data a !! ((i * w + j) * ch + c)%nat
      else None
  | _ => None
  end.

(** ** os.path (CPython's [posixpath]) *)

Module posixpath.

(** [s.rfind(c)] for a one-character [c]: the highest index at which [c]
    occurs in [s], or -1. *)
Fixpoint rfind (s : string) (c : ascii) : Z :=
  match s with
  | EmptyString => -1
  | String a s' =>
      let k := rfind s' c in
      if k <? 0 then (if Ascii.eqb a c then 0 else -1) else k + 1
  end.

(** [s[i:]] and [s[:i]] for an index [0 <= i] (the only slices the three
    functions below take). *)
Fixpoint drop (n : nat) (s : string) : string :=
  match n, s with
  | O, _ => s
  | S _, EmptyString => EmptyString
  | S n', String _ s' => drop n' s'
  end.

Fixpoint take (n : nat) (s : string) : string :=
  match n, s with
  | O, _ => EmptyString
  | S _, EmptyString => EmptyString
  | S n', String a s' => String a (take n' s')
  end.

Definition slice_from (s : string) (i : Z) : string := drop (Z.to_nat i) s.
Definition slice_to (s : string) (i : Z) : string := take (Z.to_nat i) s.

(** [s.startswith('/')] and [s.endswith('/')] *)
Definition startswith_sep (s : string) : bool :=
  match s with
  | String a _ => Ascii.eqb a "/"
  | EmptyString => false
  end.

Fixpoint endswith_sep (s : string) : bool :=
  match s with
  | EmptyString => false
  | String a EmptyString => Ascii.eqb a "/"
  | String _ s' => endswith_sep s'
  end.

(** <<
    def basename(p):
        i = p.rfind('/') + 1
        return p[i:]
    >> *)
Definition basename (p : string) : string :=
  let i := rfind p "/" + 1 in
  slice_from p i.

(** The loop of [_splitext] that skips leading dots of the file name:
    [true] when it meets a character other than ['.'] before [dotIndex]
    (the function then returns the split), [false] when it runs out. *)
Fixpoint found_non_dot (p : string) (filenameIndex : Z) (steps : nat) : bool :=
  match steps with
  | O => false
  | S k =>
      match String.get (Z.to_nat filenameIndex) p with
      | Some a =>
          if negb (Ascii.eqb a ".") then true
          else found_non_dot p (filenameIndex + 1) k
      | None => true
      end
  end.

(** <<
    def _splitext(p, sep, altsep, extsep):
        sepIndex = p.rfind(sep)
        dotIndex = p.rfind(extsep)
        if dotIndex > sepIndex:
            filenameIndex = sepIndex + 1
            while filenameIndex < dotIndex:
                if p[filenameIndex:filenameIndex+1] != extsep:
                    return p[:dotIndex], p[dotIndex:]
                filenameIndex += 1
        return p, p[:0]
    >> *)
Definition splitext (p : string) : string * string :=
  let sepIndex := rfind p "/" in
  let dotIndex := rfind p "." in
  if (dotIndex >? sepIndex)
     && found_non_dot p (sepIndex + 1) (Z.to_nat (dotIndex - (sepIndex + 1)))
  then (slice_to p dotIndex, slice_from p dotIndex)
  else (p, EmptyString).

(** [os.path.join(a, b)] with one component after the first:
    <<
    path = a
    if b.startswith(sep):               path = b
    elif not path or path.endswith(sep): path += b
    else:                                path += sep + b
    >> *)
Definition join (a b : string) : string :=
  if startswith_sep b then b
  else if (String.eqb a "" || endswith_sep a) then a +:+ b
  else a +:+ "/" +:+ b.

End posixpath.

(** ** The file system *)

(** Regular files, links and directories.  The content of a regular file
    is kept under one path; [links] sends every other path that names the
    same file (a symbolic link to it, or a hard link) to that path, so two
    paths can name one file; [dirs] are the directories. *)
Record FileSystem := MkFS {
  contents : gmap string (list byte);
  links : gmap string string;
  dirs : gset string
}.

(** The path a file is kept under, for a path that names it. *)
Definition resolve (f : FileSystem) (path : string) : string :=
  default path (links f !! path).

(** Reading and writing go through the links: [f !! path] is the content
    of the file [path] names, [<[path := bytes]> f] writes the file [path]
    names (creating it when there is none). *)
Global Instance fs_lookup : Lookup string (list byte) FileSystem :=
  λ path f, contents f !! resolve f path.

Global Instance fs_insert : Insert string (list byte) FileSystem :=
  λ path bytes f, MkFS (<[resolve f path := bytes]> (contents f)) (links f) (dirs f).

Global Instance fs_empty : Empty FileSystem := MkFS ∅ ∅ ∅.

(** ** The world the program runs in *)

(** A call into [cv2], with its arguments. *)
Inductive call :=
| CallImread (filename : string) (flags : Z)
| CallBilateralFilter (src : ndarray Z) (d : Z) (sigmaColor sigmaSpace : number)
| CallGaussianBlur (src : ndarray Z) (ksize : Z * Z) (sigmaX sigmaY : number)
| CallImwrite (filename : string) (img : ndarray Z).

(** The file system, the lines printed so far, and the [cv2] calls made so
    far (oldest first). *)
Record World := MkWorld {
  fs : FileSystem;
  stdout : list string;
  calls : list call
}.

(** State and exceptions: a computation takes the world and gives back a
    value or a raised exception, with the world as it left it. *)
Definition M (A : Type) : Type := World → result A * World.

Global Instance M_ret : MRet M := λ A (a : A) w, (Ok a, w).

Global Instance M_bind : MBind M := λ A B (k : A → M B) (m : M A) w,
  match m w with
  | (Ok a, w') => k a w'
  | (Raise e, w') => (Raise e, w')
  end.

Definition raise {A} (e : exn) : M A := λ w, (Raise e, w).

Definition lift {A} (r : result A) : M A := λ w, (r, w).

Definition log (c : call) (w : World) : World :=
  MkWorld (fs w) (stdout w) (calls w ++ [c]).

Definition print (line : string) : M unit := λ w,
  (Ok tt, MkWorld (fs w) (stdout w ++ [line]) (calls w)).

(** [os.path.isfile(path)] *)
Definition os_path_isfile (path : string) : M bool := λ w,
  (Ok (bool_decide (is_Some (fs w !! path))), w).

(** ** OpenCV *)

(** The part of OpenCV the program calls.  None of it is code of this
    program; the pipeline is written over any implementation.

    - [imdecode bytes flags]: the decoder behind [cv2.imread], [None] when
      the bytes are not an image it can read;
    - [bilateralFilter], [GaussianBlur]: the two filters, which may raise
      [cv2.error] on arguments they reject;
    - [imencode ext img]: the encoder behind [cv2.imwrite], chosen by file
      extension, raising [cv2.error] when there is none for [ext];
    - [can_open_for_write files path]: whether the operating system lets
      [path] be created or overwritten (its directory exists and is
      writable). *)
Class OpenCV := {
  imdecode : list byte → Z → option (ndarray Z);
  bilateralFilter : ndarray Z → Z → number → number → result (ndarray Z);
  GaussianBlur : ndarray Z → Z * Z → number → number → result (ndarray Z);
  imencode : string → ndarray Z → result (list byte);
  can_open_for_write : FileSystem → string → bool
}.

Definition IMREAD_COLOR : Z := 1.

(** What the operating system decides when [os.makedirs] has a directory
    to create: [mkdirs f name] is the outcome of creating the directory
    [name] with its missing parents in the file system [f], which is the new
    file system or the [OSError] raised (no permission, a parent that is a
    regular file, a read-only medium). *)
Class OperatingSystem := {
  mkdirs : FileSystem → string → result FileSystem
}.

(** The extension OpenCV looks an encoder up by: the file name from its
    last ['.'] on. *)
Definition file_ext (filename : string) : string :=
  let i := posixpath.rfind filename "." in
  if i <? 0 then ""%string else posixpath.slice_from filename i.

Section Program.

Context `{cv : OpenCV}.

(** [cv2.imread(filename, flags)]: [None] when the file cannot be read or
    decoded; never raises for that. *)
Definition cv2_imread (filename : string) (flags : Z)
    : M (option (ndarray Z)) := λ w,
  (Ok (match fs w !! filename with
       | Some bytes => imdecode bytes flags
       | None => None
       end),
   log (CallImread filename flags) w).

Definition cv2_bilateralFilter (src : ndarray Z) (d : Z)
    (sigmaColor sigmaSpace : number)
    : M (ndarray Z) := λ w,
  (bilateralFilter src d sigmaColor sigmaSpace,
   log (CallBilateralFilter src d sigmaColor sigmaSpace) w).

Definition cv2_GaussianBlur (src : ndarray Z) (ksize : Z * Z)
    (sigmaX sigmaY : number) : M (ndarray Z) := λ w,
  (GaussianBlur src ksize sigmaX sigmaY,
   log (CallGaussianBlur src ksize sigmaX sigmaY) w).

(** [cv2.imwrite(filename, img)]: raises [cv2.error] when no encoder fits
    the extension; otherwise returns [True] after writing the encoded
    bytes, or [False], without raising, when the file cannot be opened
    for writing. *)
Definition cv2_imwrite (filename : string) (img : ndarray Z) : M bool := λ w,
  let w1 := log (CallImwrite filename img) w in
  match imencode (file_ext filename) img with
  | Raise e => (Raise e, w1)
  | Ok bytes =>
      if can_open_for_write (fs w) filename
      then (Ok true, MkWorld (<[filename := bytes]> (fs w1)) (stdout w1) (calls w1))
      else (Ok false, w1)
  end.

(** <<
    def bilateral_denoise(img, d=9, sigma_color=75, sigma_space=75):
        return cv2.bilateralFilter(img, d, sigma_color, sigma_space)
    >> *)
Definition bilateral_denoise (img : ndarray Z) (d : Z)
    (sigma_color sigma_space : number)
    : M (ndarray Z) :=
  cv2_bilateralFilter img d sigma_color sigma_space.

(** <<
    def unsharp_mask(img, amount=1.0, radius=5):
        blurred = cv2.GaussianBlur(img, (0,0), sigmaX=radius, sigmaY=radius)
        img_f = img.astype(np.float32)
        blurred_f = blurred.astype(np.float32)
        mask = img_f - blurred_f
        result = img_f + amount * mask
        result = np.clip(result, 0, 255).astype(np.uint8)
        return result
    >> *)
Definition unsharp_mask (img : ndarray Z) (amount : spec_float) (radius : number)
    : M (ndarray Z) :=
  blurred ← cv2_GaussianBlur img (0, 0) radius radius;
  let img_f := nd.astype_float32 img in
  let blurred_f := nd.astype_float32 blurred in
  mask ← lift (nd.sub img_f blurred_f);
  result ← lift (nd.add img_f (nd.scalar_mul amount mask));
  let result := nd.astype_uint8 (nd.clip result 0 255) in
  mret result.

End Program.

(** [str(n)] for a non-negative Python int *)
Definition str_of_nat (n : nat) : string :=
  NilZero.string_of_uint (Nat.to_uint n).

Section Pipeline.

Context `{cv : OpenCV} `{os : OperatingSystem}.

(** <<
    def process_image(path_in, path_out):
        if not os.path.isfile(path_in):
            raise FileNotFoundError(f"File input tidak ditemukan: {path_in}")
        img = cv2.imread(path_in, cv2.IMREAD_COLOR)
        if img is None:
            raise ValueError('Gagal membaca citra — ...')
        h, w = img.shape[:2]
        print(f"Membaca '{path_in}' — resolusi: {w}x{h}, dtype: {img.dtype}")
        denoised = bilateral_denoise(img, d=9, sigma_color=75, sigma_space=75)
        sharpened = unsharp_mask(denoised, amount=1.0, radius=3)
        base = os.path.splitext(os.path.basename(path_in))[0]
        out_name = f"result_{base}.png"
        out_path = os.path.join(path_out, out_name)
        cv2.imwrite(out_path, sharpened)
        print(f"Selesai. Hasil disimpan di: {out_path}")
    >>
    The value [cv2.imwrite] returns is dropped, as in the source. *)
Definition process_image (path_in path_out : string) : M unit :=
  is_file ← os_path_isfile path_in;
  if negb is_file
  then raise (FileNotFoundError ("File input tidak ditemukan: " +:+ path_in))
  else
    img ← cv2_imread path_in IMREAD_COLOR;
    match img with
    | None =>
        raise (ValueError
          "Gagal membaca citra — format mungkin tidak didukung atau file korup.")
    | Some img =>
        match shape img with
        | h :: w :: _ =>
            print ("Membaca '" +:+ path_in +:+ "' — resolusi: "
                   +:+ str_of_nat w +:+ "x" +:+ str_of_nat h
                   +:+ ", dtype: " +:+ dtype_name (dtype_of img));;
            denoised ← bilateral_denoise img 9 75 75;
            sharpened ← unsharp_mask denoised py_1_0 3;
            let base := (posixpath.splitext (posixpath.basename path_in)).1 in
            let out_name := "result_" +:+ base +:+ ".png" in
            let out_path := posixpath.join path_out out_name in
            _ ← cv2_imwrite out_path sharpened;
            print ("Selesai. Hasil disimpan di: " +:+ out_path)
        | _ =>
            raise (ValueError "not enough values to unpack (expected 2)")
        end
    end.

(** [os.makedirs(name, exist_ok=True)].  CPython's [makedirs] ends in
    <<
    try:
        mkdir(name, mode)
    except OSError:
        if not exist_ok or not path.isdir(name):
            raise
    >>
    so a directory that is there already is left alone, a regular file in
    its place makes the call raise [FileExistsError], and what happens
    when the directory has to be created is the operating system's to
    say. *)
Definition os_makedirs_exist_ok (name : string) : M unit := λ w,
  if bool_decide (name ∈ dirs (fs w)) then (Ok tt, w)
  else if bool_decide (is_Some (fs w !! name))
  then (Raise (FileExistsError ("[Errno 17] File exists: '" +:+ name +:+ "'")), w)
  else match mkdirs (fs w) name with
       | Ok f' => (Ok tt, MkWorld f' (stdout w) (calls w))
       | Raise e => (Raise e, w)
       end.

(** The module-level constants, over the directory [BASE_DIR] the script
    lives in. *)
Definition IMAGES_DIR (BASE_DIR : string) : string :=
  posixpath.join BASE_DIR "images".
Definition OUTPUT_DIR (BASE_DIR : string) : string :=
  posixpath.join BASE_DIR "output".
Definition INPUT_IMAGE_NAME : string := "img-3.jpg".
Definition INPUT_PATH (BASE_DIR : string) : string :=
  posixpath.join (IMAGES_DIR BASE_DIR) INPUT_IMAGE_NAME.

(** The script from its first effect to its last: the module-level
    statement of line 21, which runs when the file is loaded, then the
    [__main__] block.
    <<
    os.makedirs(OUTPUT_DIR, exist_ok=True)
    ...
    if __name__ == '__main__':
        print('--- HelloImageProject - proses mulai ---')
        process_image(INPUT_PATH, OUTPUT_DIR)
    >> *)
Definition main (BASE_DIR : string) : M unit :=
  os_makedirs_exist_ok (OUTPUT_DIR BASE_DIR);;
  print "--- HelloImageProject - proses mulai ---";;
  process_image (INPUT_PATH BASE_DIR) (OUTPUT_DIR BASE_DIR).

End Pipeline.

(** The output path [process_image] computes. *)
Definition out_name_of (path_in : string) : string :=
  "result_" +:+ (posixpath.splitext (posixpath.basename path_in)).1 +:+ ".png".

Definition out_path_of (path_in path_out : string) : string :=
  posixpath.join path_out (out_name_of path_in).

(** The two lines a successful run prints. *)
Definition reading_line (path_in : string) (img : ndarray Z) : string :=
  match shape img with
  | h :: w :: _ =>
      "Membaca '" +:+ path_in +:+ "' — resolusi: "
      +:+ str_of_nat w +:+ "x" +:+ str_of_nat h
      +:+ ", dtype: " +:+ dtype_name (dtype_of img)
  | _ => ""
  end.

Definition done_line (out_path : string) : string :=
  "Selesai. Hasil disimpan di: " +:+ out_path.

(** ** The contract OpenCV documents for these entry points

    - [cv2.imread] with [IMREAD_COLOR]: "always convert image to the
      3 channel BGR color image"; without [IMREAD_ANYDEPTH] the samples are
      8-bit;
    - [cv2.bilateralFilter], [cv2.GaussianBlur]: the destination is an
      "image of the same size and type as src". *)
Class OpenCVContract (cv : OpenCV) := {
  imdecode_color : ∀ bytes img,
    imdecode bytes IMREAD_COLOR = Some img → is_bgr8 img = true;
  bilateralFilter_same : ∀ src d sc ss dst,
    well_formed src = true →
    bilateralFilter src d sc ss = Ok dst →
    shape dst = shape src ∧ dtype_of dst = dtype_of src ∧ well_formed dst = true;
  GaussianBlur_same : ∀ src ksize sx sy dst,
    well_formed src = true →
    GaussianBlur src ksize sx sy = Ok dst →
    shape dst = shape src ∧ dtype_of dst = dtype_of src ∧ well_formed dst = true
}.

(** Creating directories creates directories: it leaves every regular
    file and every link as it was. *)
Class OperatingSystemContract (os : OperatingSystem) := {
  mkdirs_keeps_files : ∀ f name f',
    mkdirs f name = Ok f' → contents f' = contents f ∧ links f' = links f
}.

(** ** The sharpener, sample by sample

    What the specification says of one sample: the original value plus
    [amount] times (original minus blurred), computed in float32, clipped to
    [0, 255] and stored as an unsigned byte. *)
Definition sharpen_value (amount : spec_float) (original blurred : Z) : Z :=
  let o := np.f32_of_Z original in
  let b := np.f32_of_Z blurred in
  let k := np.f32_of_f64 amount in
  np.u8_of_f32
    (np.clip1 (np.f32_of_Z 0) (np.f32_of_Z 255)
       (np.f32_add o (np.f32_mul k (np.f32_sub o b)))).

(** The same in exact integer arithmetic, for an [amount] of 1. *)
Definition sharpen_exact_1 (original blurred : Z) : Z :=
  Z.max 0 (Z.min 255 (original + 1 * (original - blurred))).

(** ** Definitions used to state the results *)

Definition all_bytes : list Z := seqZ 0 256.

(** The bytes with their float32 values, computed once. *)
Definition byte_table : list (Z * spec_float) :=
  (λ o, (o, np.f32_of_Z o)) <$> all_bytes.

Definition finite_or_zero (x : spec_float) : bool :=
  match x with
  | S754_zero _ | S754_finite _ _ _ => true
  | _ => false
  end.

(** A string made of dots only (the empty string included). *)
Fixpoint all_dots (s : string) : bool :=
  match s with
  | EmptyString => true
  | String a s' => Ascii.eqb a "." && all_dots s'
  end.

(** World after the loader's call, and after the stages' calls. *)
Definition after_imread (path_in : string) (w : World) : World :=
  log (CallImread path_in IMREAD_COLOR) w.

Definition after_stages (path_in : string) (img den : ndarray Z)
    (w : World) : World :=
  MkWorld (fs w)
          (stdout w ++ [reading_line path_in img])
          (calls w ++ [CallImread path_in IMREAD_COLOR;
                       CallBilateralFilter img 9 75 75;
                       CallGaussianBlur den (0, 0) 3 3]).

Section Written.

Context `{cv : OpenCV}.

(** The world a run ends in when it reached the writer with grid [sh] and
    the writer returned. *)
Definition after_write (path_in path_out : string) (img den sh : ndarray Z)
    (png : list byte) (w : World) : World :=
  let out_path := out_path_of path_in path_out in
  MkWorld (if can_open_for_write (fs w) out_path
           then <[out_path := png]> (fs w) else fs w)
          (stdout w ++ [reading_line path_in img; done_line out_path])
          (calls w ++ [CallImread path_in IMREAD_COLOR;
                       CallBilateralFilter img 9 75 75;
                       CallGaussianBlur den (0, 0) 3 3;
                       CallImwrite out_path sh]).

End Written.

(** A computation that leaves the files alone except, at most, for writing
    the file [p], and that calls [cv2.imwrite] on no other path. *)
Definition only_writes {A : Type} (p : string) (m : M A) : Prop :=
  ∀ w r w', m w = (r, w') →
    (fs w' = fs w ∨ ∃ bytes, fs w' = <[p := bytes]> (fs w))
    ∧ (∀ q g, CallImwrite q g ∈ calls w' → CallImwrite q g ∈ calls w ∨ q = p).

(** A computation that only ever appends to the log of calls. *)
Definition extends_calls {A : Type} (m : M A) : Prop :=
  ∀ w r w', m w = (r, w') → ∃ more, calls w' = calls w ++ more.

(** ** A small stand-in for OpenCV

    Used to run the pipeline on concrete inputs.  Files are
    [height, width, samples...] with one sample per pixel (grey), three
    (blue, green, red) or four (with alpha); the filters are the identity
    and a halving of every sample; the encoder writes the same container
    and knows the extension [.png] only; paths under [/readonly/] cannot be
    written. *)

Module toy.

Definition byte_val (b : byte) : Z := Z.of_N (Byte.to_N b).

Definition byte_of_Z (z : Z) : byte :=
  match Byte.of_N (Z.to_N (z mod 256)) with
  | Some b => b
  | None => x00
  end.

Fixpoint drop_alpha (samples : list byte) : list byte :=
  match samples with
  | b :: g :: r :: _ :: rest => b :: g :: r :: drop_alpha rest
  | _ => []
  end.

(** Forced colour decoding: grey is replicated, alpha is dropped. *)
Definition to_bgr (pixels : nat) (samples : list byte) : list byte :=
  if (length samples =? pixels)%nat then flat_map (λ v, [v; v; v]) samples
  else if (length samples =? 4 * pixels)%nat then drop_alpha samples
  else samples.

Definition decode (bytes : list byte) (flags : Z) : option (ndarray Z) :=
  match bytes with
  | hb :: wb :: samples =>
      let h := N.to_nat (Byte.to_N hb) in
      let w := N.to_nat (Byte.to_N wb) in
      let bgr := to_bgr (h * w) samples in
      if (flags =? IMREAD_COLOR) && (0 <? h)%nat && (0 <? w)%nat
         && (length bgr =? h * w * 3)%nat
      then Some (NdArray [h; w; 3%nat] uint8 (byte_val <$> bgr))
      else None
  | _ => None
  end.

Definition identity_filter (src : ndarray Z) (d : Z)
    (sigmaColor sigmaSpace : number)
    : result (ndarray Z) :=
  Ok src.

(** The blur checks its arguments as OpenCV does: a sigma of the second
    axis that is not positive is taken from the first axis, a kernel size
    that is not positive is derived from the sigma, which must then be
    positive, and a kernel size that is given must be odd; otherwise the
    call raises. *)
Definition halving_blur (src : ndarray Z) (ksize : Z * Z) (sigmaX sigmaY : number)
    : result (ndarray Z) :=
  let sigmaY := if is_positive sigmaY then sigmaY else sigmaX in
  let width_ok := if ksize.1 <=? 0 then is_positive sigmaX else Z.odd ksize.1 in
  let height_ok := if ksize.2 <=? 0 then is_positive sigmaY else Z.odd ksize.2 in
  if width_ok && height_ok
  then Ok (NdArray (shape src) (dtype_of src) ((λ v, v / 2) <$> data src))
  else Raise (cv2_error "GaussianBlur: the kernel size cannot be derived").

Definition encode (ext : string) (img : ndarray Z) : result (list byte) :=
  if String.eqb ext ".png"
  then Ok (((λ n, byte_of_Z (Z.of_nat n)) <$> take 2 (shape img))
           ++ (byte_of_Z <$> data img))
  else Raise (cv2_error "could not find a writer for the specified extension").

Definition writable (files : FileSystem) (path : string) : bool :=
  negb (String.prefix "/readonly/" path).

(** Directories can be created anywhere but under [/readonly/]. *)
Definition make_dirs (f : FileSystem) (name : string) : result FileSystem :=
  if String.prefix "/readonly/" name
  then Raise (OSError ("[Errno 13] Permission denied: '" +:+ name +:+ "'"))
  else Ok (MkFS (contents f) (links f) ({[name]} ∪ dirs f)).

Definition os : OperatingSystem := {| mkdirs := make_dirs |}.

Definition opencv : OpenCV := {|
  imdecode := decode;
  bilateralFilter := identity_filter;
  GaussianBlur := halving_blur;
  imencode := encode;
  can_open_for_write := writable
|}.

(** A 1 x 2 colour image, the same picture in grey, and an empty file. *)
Definition img_3_jpg : list byte := [x01; x02; x64; xc8; x00; xff; x0a; x3c].
Definition grey_png : list byte := [x01; x02; x64; xc8].

Definition files : FileSystem :=
  <["/app/images/img-3.jpg"%string := img_3_jpg]>
    (<["/app/images/grey.png"%string := grey_png]>
       (<["/app/images/empty.jpg"%string := []]> ∅)).

Definition world : World := MkWorld files [] [].

(** Another world: the same picture under another name, next to another
    file, with something printed already. *)
Definition world2 : World :=
  MkWorld (<["/app/images/copy.jpg"%string := img_3_jpg]>
             (<["/app/notes.txt"%string := [x68; x69]]> ∅))
          ["earlier output"%string] [].

Definition img_3 : ndarray Z :=
  NdArray [1%nat; 2%nat; 3%nat] uint8 [100; 200; 0; 255; 10; 60].

Definition img_3_blurred : ndarray Z :=
  NdArray [1%nat; 2%nat; 3%nat] uint8 [50; 100; 0; 127; 5; 30].

Definition img_3_sharpened : ndarray Z :=
  NdArray [1%nat; 2%nat; 3%nat] uint8 [150; 255; 0; 255; 15; 90].

End toy.

(** ** Further definitions used to state the results *)

(** A computation that only ever appends to standard output. *)
Definition extends_stdout {A : Type} (m : M A) : Prop :=
  ∀ w r w', m w = (r, w') → ∃ more, stdout w' = stdout w ++ more.

(** The world of the stand-in with the output path of [img-3.jpg] made a
    link to that input file. *)
Definition toy_linked_world : World :=
  MkWorld (MkFS (contents toy.files)
                {["/app/output/result_img-3.png"%string
                  := "/app/images/img-3.jpg"%string]}
                ∅)
          [] [].

(** The world of the stand-in with a regular file where the output
    directory should be. *)
Definition toy_blocked_world : World :=
  MkWorld (<["/app/output"%string := [x00]]> toy.files) [] [].

(** The stand-in with a Gaussian blur that rejects every call. *)
Definition toy_failing_blur : OpenCV := {|
  imdecode := toy.decode;
  bilateralFilter := toy.identity_filter;
  GaussianBlur := λ _ _ _ _, Raise (cv2_error "GaussianBlur: rejected");
  imencode := toy.encode;
  can_open_for_write := toy.writable
|}.

(** * Results *)

(** ** Facts about the file system *)

Lemma resolve_insert (f : FileSystem) (p q : string) (bytes : list byte) :
  resolve (<[p := bytes]> f) q = resolve f q.
Proof. reflexivity. Qed.

Lemma fs_lookup_insert_eq (f : FileSystem) (p : string) (bytes : list byte) :
  (<[p := bytes]> f) !! p = Some bytes.
Proof.
  unfold lookup, fs_lookup, insert, fs_insert. cbn [contents links].
  unfold resolve at 1. cbn [links]. fold (resolve f p).
  apply lookup_insert_eq.
Qed.

(** Writing through one path is seen through every path that names the
    same file, and through no other. *)
Lemma fs_lookup_insert_same (f : FileSystem) (p q : string) (bytes : list byte) :
  resolve f q = resolve f p → (<[p := bytes]> f) !! q = Some bytes.
Proof.
  intros H. unfold lookup, fs_lookup, insert, fs_insert. cbn [contents links].
  unfold resolve at 1. cbn [links]. fold (resolve f q). rewrite H.
  apply lookup_insert_eq.
Qed.

Lemma fs_lookup_insert_ne (f : FileSystem) (p q : string) (bytes : list byte) :
  resolve f q ≠ resolve f p → (<[p := bytes]> f) !! q = f !! q.
Proof.
  intros H. unfold lookup, fs_lookup, insert, fs_insert. cbn [contents links].
  unfold resolve at 1. cbn [links]. fold (resolve f q).
  by apply lookup_insert_ne.
Qed.

Lemma fs_insert_insert_eq (f : FileSystem) (p : string) (b1 b2 : list byte) :
  <[p := b2]> (<[p := b1]> f) = <[p := b2]> f.
Proof.
  unfold insert, fs_insert. cbn [contents links dirs].
  unfold resolve at 1. cbn [links]. fold (resolve f p).
  f_equal. apply insert_insert_eq.
Qed.

(** ** Checks of the definitions on small inputs *)

Example f32_of_f64_one :
  np.f32_of_f64 py_1_0 = S754_finite false 8388608 (-23).
Proof. reflexivity. Qed.

Example f32_of_Z_255 : np.trunc (np.f32_of_Z 255) = 255.
Proof. reflexivity. Qed.

Example f32_sub_ex :
  np.trunc (np.f32_sub (np.f32_of_Z 3) (np.f32_of_Z 200)) = -197.
Proof. reflexivity. Qed.

Example basename_ex : posixpath.basename "/srv/app/images/img-3.jpg" = "img-3.jpg"%string.
Proof. reflexivity. Qed.

Example splitext_ex :
  posixpath.splitext "img-3.jpg" = ("img-3"%string, ".jpg"%string).
Proof. reflexivity. Qed.

Example splitext_hidden :
  posixpath.splitext ".bashrc" = (".bashrc"%string, ""%string).
Proof. reflexivity. Qed.

Example splitext_two_dots :
  posixpath.splitext "a.tar.gz" = ("a.tar"%string, ".gz"%string).
Proof. reflexivity. Qed.

Example join_ex :
  posixpath.join "/srv/app/output" "result_img-3.png"
  = "/srv/app/output/result_img-3.png"%string.
Proof. reflexivity. Qed.

Example str_of_nat_64 : str_of_nat 64 = "64"%string.
Proof. reflexivity. Qed.

(** ** Facts about one sample *)

Lemma sharpen_value_range (amount : spec_float) (o b : Z) :
  0 <= sharpen_value amount o b <= 255.
Proof.
  unfold sharpen_value, np.u8_of_f32.
  pose proof (Z.mod_pos_bound
    (np.trunc (np.clip1 (np.f32_of_Z 0) (np.f32_of_Z 255)
       (np.f32_add (np.f32_of_Z o)
          (np.f32_mul (np.f32_of_f64 amount)
             (np.f32_sub (np.f32_of_Z o) (np.f32_of_Z b)))))) 256).
  lia.
Qed.

Lemma in_byte_table (o : Z) : 0 <= o <= 255 → In (o, np.f32_of_Z o) byte_table.
Proof.
  intros Ho. apply list_elem_of_In. unfold byte_table.
  apply (list_elem_of_fmap_2 (λ o, (o, np.f32_of_Z o))), elem_of_seqZ. lia.
Qed.

(** A property of two bytes and their float32 values that holds on all
    256 x 256 pairs. *)
Lemma forall_bytes2 (Q : Z * spec_float → Z * spec_float → bool) :
  (let tbl := byte_table in forallb (λ x, forallb (Q x) tbl) tbl) = true →
  ∀ o b, 0 <= o <= 255 → 0 <= b <= 255 →
    Q (o, np.f32_of_Z o) (b, np.f32_of_Z b) = true.
Proof.
  cbv zeta. intros H o b Ho Hb.
  rewrite forallb_forall in H. specialize (H _ (in_byte_table o Ho)).
  rewrite forallb_forall in H. exact (H _ (in_byte_table b Hb)).
Qed.

Lemma forall_bytes1 (Q : Z * spec_float → bool) :
  forallb Q byte_table = true →
  ∀ o, 0 <= o <= 255 → Q (o, np.f32_of_Z o) = true.
Proof.
  intros H o Ho. rewrite forallb_forall in H. exact (H _ (in_byte_table o Ho)).
Qed.

(** The three float32 constants of the pipeline. *)
Lemma f32_zero : np.f32_of_Z 0 = S754_zero false.
Proof. reflexivity. Qed.

Lemma f32_255 : np.f32_of_Z 255 = S754_finite false 16711680 (-16).
Proof. reflexivity. Qed.

Lemma f32_one : np.f32_of_f64 py_1_0 = S754_finite false 8388608 (-23).
Proof. reflexivity. Qed.

(** With [amount = 1.0] the float32 computation on bytes is exact. *)
Lemma sharpen_value_amount_one (o b : Z) :
  0 <= o <= 255 → 0 <= b <= 255 →
  sharpen_value py_1_0 o b = sharpen_exact_1 o b.
Proof.
  intros Ho Hb. apply Z.eqb_eq.
  unfold sharpen_value. rewrite f32_zero, f32_255, f32_one.
  apply (forall_bytes2
    (λ x y, np.u8_of_f32
              (np.clip1 (S754_zero false) (S754_finite false 16711680 (-16))
                 (np.f32_add x.2
                    (np.f32_mul (S754_finite false 8388608 (-23))
                       (np.f32_sub x.2 y.2))))
            =? sharpen_exact_1 x.1 y.1)); [|assumption..].
  vm_compute. reflexivity.
Qed.

(** The difference of two bytes is a finite float32. *)
Lemma f32_sub_bytes_finite (o b : Z) :
  0 <= o <= 255 → 0 <= b <= 255 →
  finite_or_zero (np.f32_sub (np.f32_of_Z o) (np.f32_of_Z b)) = true.
Proof.
  intros Ho Hb.
  apply (forall_bytes2 (λ x y, finite_or_zero (np.f32_sub x.2 y.2)));
    [|assumption..].
  vm_compute. reflexivity.
Qed.

(** Adding a zero of either sign to a byte and storing it gives the byte. *)
Lemma f32_add_zero_byte (o : Z) (s : bool) :
  0 <= o <= 255 →
  np.u8_of_f32
    (np.clip1 (np.f32_of_Z 0) (np.f32_of_Z 255)
       (np.f32_add (np.f32_of_Z o) (S754_zero s))) = o.
Proof.
  intros Ho. apply Z.eqb_eq. rewrite f32_zero, f32_255.
  destruct s.
  - apply (forall_bytes1
      (λ x, np.u8_of_f32
              (np.clip1 (S754_zero false) (S754_finite false 16711680 (-16))
                 (np.f32_add x.2 (S754_zero true))) =? x.1)); [|assumption].
    vm_compute. reflexivity.
  - apply (forall_bytes1
      (λ x, np.u8_of_f32
              (np.clip1 (S754_zero false) (S754_finite false 16711680 (-16))
                 (np.f32_add x.2 (S754_zero false))) =? x.1)); [|assumption].
    vm_compute. reflexivity.
Qed.

(** With [amount = 0] (either sign) a byte comes back unchanged. *)
Lemma sharpen_value_amount_zero (s : bool) (o b : Z) :
  0 <= o <= 255 → 0 <= b <= 255 →
  sharpen_value (S754_zero s) o b = o.
Proof.
  intros Ho Hb. unfold sharpen_value.
  pose proof (f32_sub_bytes_finite o b Ho Hb) as Hr.
  destruct (np.f32_sub (np.f32_of_Z o) (np.f32_of_Z b)) as [sr|si| |sr m e];
    try discriminate.
  - change (np.f32_mul (np.f32_of_f64 (S754_zero s)) (S754_zero sr))
      with (S754_zero (xorb s sr)).
    by apply f32_add_zero_byte.
  - change (np.f32_mul (np.f32_of_f64 (S754_zero s)) (S754_finite sr m e))
      with (S754_zero (xorb s sr)).
    by apply f32_add_zero_byte.
Qed.
(** ** Facts about arrays *)

Lemma in_range_uint8 (x : Z) : in_range uint8 x = true ↔ 0 <= x <= 255.
Proof. unfold in_range. rewrite andb_true_iff, !Z.leb_le. tauto. Qed.

Lemma well_formed_length (a : ndarray Z) :
  well_formed a = true → length (data a) = shape_size (shape a).
Proof.
  unfold well_formed. rewrite andb_true_iff, Nat.eqb_eq. tauto.
Qed.

Lemma well_formed_uint8 (a : ndarray Z) (x : Z) :
  well_formed a = true → dtype_of a = uint8 → x ∈ data a → 0 <= x <= 255.
Proof.
  unfold well_formed. rewrite andb_true_iff, forallb_forall.
  intros [_ H] Ht Hx. rewrite Ht in H.
  apply in_range_uint8, H, list_elem_of_In, Hx.
Qed.

Lemma is_bgr8_inv (a : ndarray Z) :
  is_bgr8 a = true →
  (∃ h w, shape a = [h; w; 3%nat]) ∧ dtype_of a = uint8 ∧ well_formed a = true.
Proof.
  unfold is_bgr8.
  destruct (shape a) as [|h [|w [|c [|? ?]]]]; try discriminate.
  all: destruct c as [|[|[|[|?]]]]; try discriminate.
  all: destruct (dtype_of a); try discriminate.
  intros H. split; [by exists h, w | split; [reflexivity | exact H]].
Qed.

(** The float32 pipeline of [unsharp_mask] on the sample lists. *)
Lemma sharpen_lists (amount : spec_float) (xs ys : list Z) :
  np.u8_of_f32 <$>
    (np.clip1 (np.f32_of_Z 0) (np.f32_of_Z 255) <$>
       zip_with np.f32_add (np.f32_of_Z <$> xs)
         (np.f32_mul (np.f32_of_f64 amount) <$>
            zip_with np.f32_sub (np.f32_of_Z <$> xs) (np.f32_of_Z <$> ys)))
  = zip_with (sharpen_value amount) xs ys.
Proof.
  revert ys. induction xs as [|x xs IH]; intros [|y ys]; try reflexivity.
  cbn [fmap list_fmap zip_with]. f_equal. apply IH.
Qed.

Lemma zip_with_fst_id (f : Z → Z → Z) (xs ys : list Z) :
  length xs = length ys →
  (∀ x y, x ∈ xs → y ∈ ys → f x y = x) →
  zip_with f xs ys = xs.
Proof.
  revert ys. induction xs as [|x xs IH]; intros [|y ys] Hl Hf;
    try discriminate; [reflexivity|].
  cbn. f_equal.
  - apply Hf; constructor.
  - apply IH; [by injection Hl|]. intros; apply Hf; by constructor.
Qed.

(** ** Running the two stages *)

Section Stages.

Context `{cv : OpenCV}.

Lemma bilateral_denoise_run (img : ndarray Z) (d : Z) (sc ss : number) (w : World) :
  bilateral_denoise img d sc ss w
  = (bilateralFilter img d sc ss, log (CallBilateralFilter img d sc ss) w).
Proof. reflexivity. Qed.

(** When the blur fails the sharpener raises what the blur raised. *)
Lemma unsharp_mask_blur_raises (img : ndarray Z) (amount : spec_float)
    (radius : number) (e : exn) (w : World) :
  GaussianBlur img (0, 0) radius radius = Raise e →
  unsharp_mask img amount radius w
  = (Raise e, log (CallGaussianBlur img (0, 0) radius radius) w).
Proof.
  intros Hb. unfold unsharp_mask, mbind, M_bind, cv2_GaussianBlur.
  rewrite Hb. reflexivity.
Qed.

(** When the blur returns an array of the shape it was given, the
    sharpener returns the sample-wise formula over the two arrays. *)
Lemma unsharp_mask_run (img blurred : ndarray Z) (amount : spec_float)
    (radius : number) (w : World) :
  GaussianBlur img (0, 0) radius radius = Ok blurred →
  shape blurred = shape img →
  unsharp_mask img amount radius w
  = (Ok (NdArray (shape img) uint8
           (zip_with (sharpen_value amount) (data img) (data blurred))),
     log (CallGaussianBlur img (0, 0) radius radius) w).
Proof.
  intros Hb Hs.
  unfold unsharp_mask, mbind, M_bind, cv2_GaussianBlur, lift, mret, M_ret.
  rewrite Hb.
  unfold nd.sub, nd.add, nd.elementwise, nd.scalar_mul, nd.clip,
    nd.astype_uint8, nd.astype_float32.
  cbn [shape data dtype_of]. rewrite Hs.
  destruct (decide (shape img = shape img)) as [_|Hn]; [|by destruct Hn].
  cbn [shape data dtype_of].
  destruct (decide (shape img = shape img)) as [_|Hn]; [|by destruct Hn].
  cbn [shape data dtype_of].
  rewrite sharpen_lists. reflexivity.
Qed.

Context {contract : OpenCVContract cv}.

(** Under the OpenCV contract the sharpener either raises the blur's
    exception or returns the formula. *)
Lemma unsharp_mask_cases (img : ndarray Z) (amount : spec_float)
    (radius : number) (w : World) :
  well_formed img = true →
  (∃ e, GaussianBlur img (0, 0) radius radius = Raise e
        ∧ unsharp_mask img amount radius w
          = (Raise e, log (CallGaussianBlur img (0, 0) radius radius) w))
  ∨ (∃ blurred, GaussianBlur img (0, 0) radius radius = Ok blurred
        ∧ shape blurred = shape img
        ∧ dtype_of blurred = dtype_of img
        ∧ well_formed blurred = true
        ∧ unsharp_mask img amount radius w
          = (Ok (NdArray (shape img) uint8
                   (zip_with (sharpen_value amount) (data img) (data blurred))),
             log (CallGaussianBlur img (0, 0) radius radius) w)).
Proof.
  intros Hwf.
  destruct (GaussianBlur img (0, 0) radius radius) as [blurred|e] eqn:Hb.
  - right. exists blurred.
    destruct (GaussianBlur_same _ _ _ _ _ Hwf Hb) as (Hs & Ht & Hw).
    repeat split; try assumption.
    by apply unsharp_mask_run.
  - left. exists e. split; [reflexivity|].
    by apply unsharp_mask_blur_raises.
Qed.

End Stages.

(** ** Running the pipeline *)

Lemma M_bind_ok {A B : Type} (m : M A) (k : A → M B) (w w' : World) (a : A) :
  m w = (Ok a, w') → (m ≫= k) w = k a w'.
Proof. intros H. unfold mbind, M_bind. rewrite H. reflexivity. Qed.

Lemma M_bind_raise {A B : Type} (m : M A) (k : A → M B) (w w' : World) (e : exn) :
  m w = (Raise e, w') → (m ≫= k) w = (Raise e, w').
Proof. intros H. unfold mbind, M_bind. rewrite H. reflexivity. Qed.

Lemma os_path_isfile_run (path : string) (w : World) :
  os_path_isfile path w = (Ok (bool_decide (is_Some (fs w !! path))), w).
Proof. reflexivity. Qed.

Lemma print_run (line : string) (w : World) :
  print line w = (Ok tt, MkWorld (fs w) (stdout w ++ [line]) (calls w)).
Proof. reflexivity. Qed.

Section Runs.

Context `{cv : OpenCV}.

Lemma cv2_imread_run (path : string) (flags : Z) (w : World) :
  cv2_imread path flags w
  = (Ok (match fs w !! path with
         | Some bytes => imdecode bytes flags
         | None => None
         end), log (CallImread path flags) w).
Proof. reflexivity. Qed.

Lemma process_image_missing (path_in path_out : string) (w : World) :
  fs w !! path_in = None →
  process_image path_in path_out w
  = (Raise (FileNotFoundError ("File input tidak ditemukan: " +:+ path_in)), w).
Proof.
  intros Hf. unfold process_image.
  rewrite (M_bind_ok _ _ _ _ _ (os_path_isfile_run path_in w)), Hf.
  rewrite bool_decide_eq_false_2 by (intros [? ?]; discriminate).
  reflexivity.
Qed.

Lemma process_image_undecodable (path_in path_out : string) (w : World)
    (bytes : list byte) :
  fs w !! path_in = Some bytes →
  imdecode bytes IMREAD_COLOR = None →
  process_image path_in path_out w
  = (Raise (ValueError
       "Gagal membaca citra — format mungkin tidak didukung atau file korup."),
     after_imread path_in w).
Proof.
  intros Hf Hd. unfold process_image.
  rewrite (M_bind_ok _ _ _ _ _ (os_path_isfile_run path_in w)), Hf.
  rewrite bool_decide_eq_true_2 by (by eexists).
  cbn [negb].
  rewrite (M_bind_ok _ _ _ _ _ (cv2_imread_run path_in IMREAD_COLOR w)), Hf, Hd.
  reflexivity.
Qed.

(** A run whose loader and stages succeed reaches the writer with the
    sharpened grid and ends as the writer ends. *)
Lemma process_image_reaches_writer (path_in path_out : string) (w : World)
    (bytes : list byte) (img den sh : ndarray Z) (h wd : nat) (rest : list nat) :
  fs w !! path_in = Some bytes →
  imdecode bytes IMREAD_COLOR = Some img →
  shape img = h :: wd :: rest →
  bilateralFilter img 9 75 75 = Ok den →
  (∀ w', unsharp_mask den py_1_0 3 w'
         = (Ok sh, log (CallGaussianBlur den (0, 0) 3 3) w')) →
  process_image path_in path_out w
  = (cv2_imwrite (out_path_of path_in path_out) sh ≫= λ _,
     print (done_line (out_path_of path_in path_out)))
      (after_stages path_in img den w).
Proof.
  intros Hf Hd Hs Hden Hsh. unfold process_image.
  rewrite (M_bind_ok _ _ _ _ _ (os_path_isfile_run path_in w)), Hf.
  rewrite bool_decide_eq_true_2 by (by eexists).
  cbn [negb].
  rewrite (M_bind_ok _ _ _ _ _ (cv2_imread_run path_in IMREAD_COLOR w)), Hf, Hd, Hs.
  rewrite (M_bind_ok _ _ _ _ _ (print_run _ _)).
  erewrite M_bind_ok by (rewrite bilateral_denoise_run, Hden; reflexivity).
  erewrite M_bind_ok by apply Hsh.
  unfold after_stages, reading_line, out_path_of, out_name_of, done_line, log.
  rewrite Hs. cbn [fs stdout calls].
  rewrite <- !app_assoc. reflexivity.
Qed.

End Runs.

(** ** Facts about paths *)

Lemma rfind_ge (s : string) (c : ascii) : -1 <= posixpath.rfind s c.
Proof.
  induction s as [|a s IH]; cbn [posixpath.rfind]; [lia|].
  destruct (Z.ltb_spec (posixpath.rfind s c) 0); [destruct (Ascii.eqb a c)|]; lia.
Qed.

Lemma rfind_lt (s : string) (c : ascii) :
  posixpath.rfind s c < Z.of_nat (String.length s).
Proof.
  induction s as [|a s IH]; cbn [posixpath.rfind String.length]; [lia|].
  destruct (Z.ltb_spec (posixpath.rfind s c) 0); [destruct (Ascii.eqb a c)|]; lia.
Qed.

Lemma append_nil (t : string) : "" +:+ t = t.
Proof. reflexivity. Qed.

Lemma append_cons (a : ascii) (s t : string) :
  String a s +:+ t = String a (s +:+ t).
Proof. reflexivity. Qed.

Lemma append_assoc (s t u : string) : (s +:+ t) +:+ u = s +:+ (t +:+ u).
Proof.
  induction s as [|a s IH]; [reflexivity|].
  rewrite !append_cons, IH. reflexivity.
Qed.

Lemma rfind_app_found (s t : string) (c : ascii) :
  0 <= posixpath.rfind t c →
  posixpath.rfind (s +:+ t) c = Z.of_nat (String.length s) + posixpath.rfind t c.
Proof.
  intros Ht. induction s as [|a s IH].
  - rewrite append_nil. cbn [String.length]. lia.
  - rewrite append_cons. cbn [posixpath.rfind String.length]. rewrite IH. destruct (Z.ltb_spec (Z.of_nat (String.length s) + posixpath.rfind t c) 0); lia.
Qed.

Lemma rfind_app_none (s t : string) (c : ascii) :
  posixpath.rfind t c < 0 →
  posixpath.rfind (s +:+ t) c = posixpath.rfind s c.
Proof.
  intros Ht. induction s as [|a s IH].
  - rewrite append_nil. cbn [posixpath.rfind]. pose proof (rfind_ge t c). lia.
  - rewrite append_cons. cbn [posixpath.rfind]. rewrite IH. reflexivity.
Qed.

Lemma drop_app_length (s t : string) (k : nat) :
  posixpath.drop (String.length s + k) (s +:+ t) = posixpath.drop k t.
Proof.
  induction s as [|a s IH]; [reflexivity|].
  rewrite append_cons. cbn [String.length Nat.add posixpath.drop]. exact IH.
Qed.

Lemma take_app_length (s t : string) :
  posixpath.take (String.length s) (s +:+ t) = s.
Proof.
  induction s as [|a s IH]; [reflexivity|].
  rewrite append_cons. cbn [String.length posixpath.take]. by rewrite IH.
Qed.

Lemma rfind_take_none (s : string) (c : ascii) (n : nat) :
  posixpath.rfind s c < 0 → posixpath.rfind (posixpath.take n s) c < 0.
Proof.
  revert n. induction s as [|a s IH]; intros [|n]; cbn [posixpath.take posixpath.rfind];
    try lia.
  destruct (Z.ltb_spec (posixpath.rfind s c) 0) as [Hs|Hs].
  - specialize (IH n Hs). destruct (Z.ltb_spec (posixpath.rfind (posixpath.take n s) c) 0); [|lia].
    destruct (Ascii.eqb a c); lia.
  - lia.
Qed.

(** The base name holds no separator. *)
Lemma basename_no_sep (p : string) :
  posixpath.rfind (posixpath.basename p) "/" < 0.
Proof.
  unfold posixpath.basename, posixpath.slice_from.
  induction p as [|a p IH]; cbn [posixpath.rfind]; [reflexivity|].
  pose proof (rfind_ge p "/") as Hge.
  destruct (Z.ltb_spec (posixpath.rfind p "/") 0) as [Hp|Hp].
  - destruct (Ascii.eqb a "/") eqn:Ha.
    + change (Z.to_nat (0 + 1)) with 1%nat. cbn [posixpath.drop]. exact Hp.
    + change (Z.to_nat (-1 + 1)) with 0%nat. cbn [posixpath.drop posixpath.rfind].
      destruct (Z.ltb_spec (posixpath.rfind p "/") 0); [|lia]. rewrite Ha. lia.
  - replace (Z.to_nat (posixpath.rfind p "/" + 1 + 1))
      with (S (Z.to_nat (posixpath.rfind p "/" + 1))) by lia.
    cbn [posixpath.drop]. exact IH.
Qed.

(** Neither does what [splitext] leaves of it. *)
Lemma splitext_fst_no_sep (q : string) :
  posixpath.rfind q "/" < 0 →
  posixpath.rfind (posixpath.splitext q).1 "/" < 0.
Proof.
  intros Hq. unfold posixpath.splitext.
  destruct (_ && _); cbn [fst]; [|exact Hq].
  by apply rfind_take_none.
Qed.

Lemma out_name_no_sep (path_in : string) :
  posixpath.rfind (out_name_of path_in) "/" < 0.
Proof.
  unfold out_name_of.
  pose proof (splitext_fst_no_sep _ (basename_no_sep path_in)) as Hb.
  rewrite rfind_app_none; [reflexivity|].
  rewrite rfind_app_none; [exact Hb | reflexivity].
Qed.

Lemma startswith_no_sep (b : string) :
  posixpath.rfind b "/" < 0 → posixpath.startswith_sep b = false.
Proof.
  destruct b as [|a b]; [reflexivity|]. cbn [posixpath.rfind posixpath.startswith_sep].
  destruct (Ascii.eqb a "/"); [|reflexivity].
  pose proof (rfind_ge b "/").
  destruct (Z.ltb_spec (posixpath.rfind b "/") 0); lia.
Qed.

Lemma endswith_sep_rfind (a : string) :
  posixpath.endswith_sep a = true →
  posixpath.rfind a "/" = Z.of_nat (String.length a) - 1.
Proof.
  induction a as [|x a IH]; [discriminate|].
  destruct a as [|y a].
  - cbn. intros ->. reflexivity.
  - intros H. change (posixpath.endswith_sep (String y a) = true) in H.
    specialize (IH H).
    cbn [posixpath.rfind String.length] in *.
    rewrite IH.
    destruct (Z.ltb_spec (Z.of_nat (S (String.length a)) - 1) 0); lia.
Qed.

(** [join] puts the name after the directory, with one separator between
    them unless the directory is empty or already ends in one. *)
Lemma join_no_sep (a b : string) :
  posixpath.rfind b "/" < 0 →
  posixpath.join a b
  = if String.eqb a "" || posixpath.endswith_sep a then a +:+ b
    else a +:+ "/" +:+ b.
Proof.
  intros Hb. unfold posixpath.join. by rewrite startswith_no_sep.
Qed.

Lemma basename_join (a b : string) :
  posixpath.rfind b "/" < 0 →
  posixpath.basename (posixpath.join a b) = b.
Proof.
  intros Hb. rewrite join_no_sep by exact Hb.
  unfold posixpath.basename, posixpath.slice_from.
  destruct (String.eqb_spec a "") as [->|Ha]; cbn [orb].
  - rewrite append_nil.
    pose proof (rfind_ge b "/").
    replace (posixpath.rfind b "/") with (-1) by lia. reflexivity.
  - destruct (posixpath.endswith_sep a) eqn:He.
    + rewrite rfind_app_none by exact Hb.
      rewrite (endswith_sep_rfind a He).
      replace (Z.to_nat (Z.of_nat (String.length a) - 1 + 1))
        with (String.length a + 0)%nat by lia.
      apply drop_app_length.
    + rewrite rfind_app_found.
      * change (posixpath.rfind ("/" +:+ b) "/")
          with (let k := posixpath.rfind b "/" in if k <? 0 then 0 else k + 1).
        cbv zeta. destruct (Z.ltb_spec (posixpath.rfind b "/") 0); [|lia].
        replace (Z.to_nat (Z.of_nat (String.length a) + 0 + 1))
          with (String.length a + 1)%nat by lia.
        rewrite drop_app_length. reflexivity.
      * change (posixpath.rfind ("/" +:+ b) "/")
          with (let k := posixpath.rfind b "/" in if k <? 0 then 0 else k + 1).
        cbv zeta. destruct (Z.ltb_spec (posixpath.rfind b "/") 0); lia.
Qed.

Lemma file_ext_png (s : string) : file_ext (s +:+ ".png") = ".png"%string.
Proof.
  unfold file_ext, posixpath.slice_from.
  rewrite rfind_app_found by (vm_compute; discriminate).
  change (posixpath.rfind ".png" ".") with 0.
  destruct (Z.ltb_spec (Z.of_nat (String.length s) + 0) 0); [lia|].
  replace (Z.to_nat (Z.of_nat (String.length s) + 0))
    with (String.length s + 0)%nat by lia.
  apply drop_app_length.
Qed.

(** The path the writer is given ends in [.png], so OpenCV picks its PNG
    encoder whatever the input was called. *)
Lemma file_ext_out_path (path_in path_out : string) :
  file_ext (out_path_of path_in path_out) = ".png"%string.
Proof.
  unfold out_path_of. rewrite join_no_sep by apply out_name_no_sep.
  unfold out_name_of.
  destruct (_ || _); rewrite <- ?append_assoc; apply file_ext_png.
Qed.

(** The output file sits directly under the output directory: its base
    name is the derived name. *)
Lemma basename_out_path (path_in path_out : string) :
  posixpath.basename (out_path_of path_in path_out) = out_name_of path_in.
Proof. apply basename_join, out_name_no_sep. Qed.

(** *** What [splitext] removes *)

Lemma get_app_length (pre : string) (a : ascii) (r : string) :
  String.get (String.length pre) (pre +:+ String a r) = Some a.
Proof.
  induction pre as [|x pre IH]; [reflexivity|].
  rewrite append_cons. cbn [String.length String.get]. exact IH.
Qed.

Lemma length_app (s t : string) :
  String.length (s +:+ t) = (String.length s + String.length t)%nat.
Proof.
  induction s as [|a s IH]; [reflexivity|].
  rewrite append_cons. cbn [String.length]. by rewrite IH.
Qed.

Lemma found_non_dot_app (pre s t : string) :
  posixpath.found_non_dot (pre +:+ s +:+ t)
    (Z.of_nat (String.length pre)) (String.length s)
  = negb (all_dots s).
Proof.
  revert pre. induction s as [|a s IH]; intros pre; [reflexivity|].
  cbn [String.length posixpath.found_non_dot all_dots].
  rewrite Nat2Z.id, append_cons, get_app_length.
  destruct (Ascii.eqb a "."); [|reflexivity].
  cbn [negb andb].
  specialize (IH (pre +:+ String a "")).
  rewrite length_app in IH. cbn [String.length] in IH.
  rewrite append_assoc, append_cons, append_nil in IH.
  replace (Z.of_nat (String.length pre) + 1)
    with (Z.of_nat (String.length pre + 1)) by lia.
  exact IH.
Qed.

(** A name without a dot has no extension to remove. *)
Lemma splitext_no_dot (q : string) :
  posixpath.rfind q "." < 0 → posixpath.splitext q = (q, ""%string).
Proof.
  intros Hq. unfold posixpath.splitext.
  pose proof (rfind_ge q "/").
  destruct (Z.gtb_spec (posixpath.rfind q ".") (posixpath.rfind q "/")); [lia|].
  reflexivity.
Qed.

(** A name [stem.ext], where the stem is not made of dots only and the
    extension holds no further dot, loses exactly [.ext]. *)
Lemma splitext_stem_ext (stem ext : string) :
  posixpath.rfind stem "/" < 0 →
  posixpath.rfind ext "/" < 0 →
  posixpath.rfind ext "." < 0 →
  all_dots stem = false →
  posixpath.splitext (stem +:+ "." +:+ ext) = (stem, "." +:+ ext).
Proof.
  intros Hs He Hd Hnd. unfold posixpath.splitext.
  assert (Hdot : posixpath.rfind ("." +:+ ext) "." = 0).
  { rewrite append_cons, append_nil. cbn [posixpath.rfind].
    destruct (Z.ltb_spec (posixpath.rfind ext ".") 0); [reflexivity | lia]. }
  assert (Hsep : posixpath.rfind (stem +:+ "." +:+ ext) "/" = -1).
  { pose proof (rfind_ge stem "/").
    rewrite rfind_app_none; [lia|].
    rewrite append_cons, append_nil. cbn [posixpath.rfind].
    destruct (Z.ltb_spec (posixpath.rfind ext "/") 0); [|lia].
    vm_compute. reflexivity. }
  rewrite Hsep, rfind_app_found, Hdot by lia.
  destruct (Z.gtb_spec (Z.of_nat (String.length stem) + 0) (-1)); [|lia].
  replace (Z.to_nat (Z.of_nat (String.length stem) + 0 - (-1 + 1)))
    with (String.length stem) by lia.
  pose proof (found_non_dot_app "" stem ("." +:+ ext)) as Hf.
  rewrite append_nil in Hf. change (Z.of_nat (String.length "")) with (-1 + 1) in Hf.
  rewrite Hf, Hnd. cbn [andb negb].
  unfold posixpath.slice_to, posixpath.slice_from.
  replace (Z.to_nat (Z.of_nat (String.length stem) + 0))
    with (String.length stem) by lia.
  rewrite take_app_length.
  pose proof (drop_app_length stem ("." +:+ ext) 0) as Hdrop.
  rewrite Nat.add_0_r in Hdrop. rewrite Hdrop. reflexivity.
Qed.

Lemma toy_byte_val_range (b : byte) : in_range uint8 (toy.byte_val b) = true.
Proof. destruct b; reflexivity. Qed.

Lemma toy_contract : OpenCVContract toy.opencv.
Proof.
  split.
  - intros bytes img. cbn [imdecode toy.opencv]. unfold toy.decode.
    destruct bytes as [|hb [|wb samples]]; try discriminate.
    destruct (_ && _) eqn:Hc; [|discriminate].
    intros [= <-].
    apply andb_true_iff in Hc as [_ Hlen]. apply Nat.eqb_eq in Hlen.
    unfold is_bgr8, well_formed. cbn [shape dtype_of data].
    apply andb_true_iff. split.
    + apply Nat.eqb_eq. rewrite length_fmap, Hlen.
      unfold shape_size. cbn [foldr]. lia.
    + apply forallb_forall. intros x Hx. apply in_map_iff in Hx as (b & <- & _).
      apply toy_byte_val_range.
  - intros src d sc ss dst Hwf. cbn [bilateralFilter toy.opencv].
    unfold toy.identity_filter. intros [= <-]. done.
  - intros src ksize sx sy dst Hwf. cbn [GaussianBlur toy.opencv].
    unfold toy.halving_blur. destruct (_ && _); [|discriminate].
    intros [= <-]. cbn [shape dtype_of]. repeat split.
    unfold well_formed in *. cbn [shape dtype_of data].
    apply andb_true_iff in Hwf as [Hl Hr]. apply andb_true_iff. split.
    + by rewrite length_fmap.
    + apply forallb_forall. intros x Hx. apply in_map_iff in Hx as (v & <- & Hv).
      rewrite forallb_forall in Hr. specialize (Hr v Hv).
      destruct (dtype_of src); cbn [in_range] in *; try reflexivity.
      all: apply andb_true_iff in Hr as [H0 H1]; apply Z.leb_le in H0, H1.
      all: apply andb_true_iff; split; apply Z.leb_le.
      all: try (apply Z.div_pos; lia).
      all: (apply Z.div_le_upper_bound; lia).
Qed.

(** ** The writer, and what a run can touch *)

Lemma only_writes_bind {A B : Type} (p : string) (m : M A) (k : A → M B) :
  only_writes p m → (∀ a, only_writes p (k a)) → only_writes p (m ≫= k).
Proof.
  intros Hm Hk w r w'. unfold mbind, M_bind.
  destruct (m w) as [[a|e] w1] eqn:Hmw.
  - intros Hkw. destruct (Hm _ _ _ Hmw) as [Hf1 Hc1].
    destruct (Hk a _ _ _ Hkw) as [Hf2 Hc2]. split.
    + destruct Hf2 as [->|[b2 ->]]; [exact Hf1|].
      right. destruct Hf1 as [->|[b1 ->]]; [by exists b2|].
      exists b2. apply fs_insert_insert_eq.
    + intros q g Hq. destruct (Hc2 q g Hq) as [Hq'|]; [|by right].
      by apply Hc1.
  - intros [= <- <-]. exact (Hm _ _ _ Hmw).
Qed.

Lemma only_writes_quiet {A : Type} (p : string) (m : M A) :
  (∀ w r w', m w = (r, w') →
     fs w' = fs w ∧ ∀ q g, CallImwrite q g ∈ calls w' → CallImwrite q g ∈ calls w) →
  only_writes p m.
Proof.
  intros H w r w' Hm. destruct (H _ _ _ Hm) as [Hf Hc].
  split; [by left | intros q g Hq; left; by apply Hc].
Qed.

Lemma only_writes_raise {A : Type} (p : string) (e : exn) :
  only_writes p (raise e : M A).
Proof. apply only_writes_quiet. by intros w r w' [= <- <-]. Qed.

Lemma only_writes_print (p line : string) : only_writes p (print line).
Proof. apply only_writes_quiet. by intros w r w' [= <- <-]. Qed.

Lemma only_writes_isfile (p path : string) : only_writes p (os_path_isfile path).
Proof. apply only_writes_quiet. by intros w r w' [= <- <-]. Qed.

Lemma only_writes_lift {A : Type} (p : string) (x : result A) :
  only_writes p (lift x).
Proof. apply only_writes_quiet. by intros w r w' [= <- <-]. Qed.

Lemma only_writes_ret {A : Type} (p : string) (x : A) :
  only_writes p (mret x : M A).
Proof. apply only_writes_quiet. by intros w r w' [= <- <-]. Qed.

Lemma imwrite_not_logged (c : call) (w : World) (q : string) (g : ndarray Z) :
  (∀ q' g', c ≠ CallImwrite q' g') →
  CallImwrite q g ∈ calls (log c w) → CallImwrite q g ∈ calls w.
Proof.
  intros Hc. cbn [log calls]. rewrite elem_of_app, list_elem_of_singleton.
  intros [H|H]; [exact H | by destruct (Hc q g)].
Qed.

Section Frame.

Context `{cv : OpenCV}.

Lemma cv2_imwrite_run (filename : string) (img : ndarray Z) (w : World) :
  cv2_imwrite filename img w
  = match imencode (file_ext filename) img with
    | Raise e => (Raise e, log (CallImwrite filename img) w)
    | Ok bytes =>
        if can_open_for_write (fs w) filename
        then (Ok true,
              MkWorld (<[filename := bytes]> (fs w)) (stdout w)
                      (calls w ++ [CallImwrite filename img]))
        else (Ok false, log (CallImwrite filename img) w)
    end.
Proof. reflexivity. Qed.

Lemma only_writes_imread (p path : string) (flags : Z) :
  only_writes p (cv2_imread path flags).
Proof.
  apply only_writes_quiet. intros w r w' [= <- <-]. split; [reflexivity|].
  intros q g. by apply imwrite_not_logged.
Qed.

Lemma only_writes_bilateral (p : string) (img : ndarray Z) (d : Z) (sc ss : number) :
  only_writes p (bilateral_denoise img d sc ss).
Proof.
  apply only_writes_quiet. intros w r w' [= <- <-]. split; [reflexivity|].
  intros q g. by apply imwrite_not_logged.
Qed.

Lemma only_writes_GaussianBlur (p : string) (img : ndarray Z) (ks : Z * Z) (sx sy : number) :
  only_writes p (cv2_GaussianBlur img ks sx sy).
Proof.
  apply only_writes_quiet. intros w r w' [= <- <-]. split; [reflexivity|].
  intros q g. by apply imwrite_not_logged.
Qed.

Lemma only_writes_unsharp (p : string) (img : ndarray Z) (amount : spec_float)
    (radius : number) :
  only_writes p (unsharp_mask img amount radius).
Proof.
  unfold unsharp_mask.
  apply only_writes_bind; [apply only_writes_GaussianBlur|]. intros blurred.
  apply only_writes_bind; [apply only_writes_lift|]. intros mask.
  apply only_writes_bind; [apply only_writes_lift|]. intros res.
  apply only_writes_ret.
Qed.

Lemma only_writes_imwrite (p : string) (img : ndarray Z) :
  only_writes p (cv2_imwrite p img).
Proof.
  intros w r w'. rewrite cv2_imwrite_run.
  destruct (imencode _ _) as [bytes|e]; [destruct (can_open_for_write _ _)|];
    intros [= <- <-]; cbn [fs calls log]; (split; [eauto|]);
    intros q g; rewrite elem_of_app, list_elem_of_singleton;
    (intros [H|[= -> _]]; [by left | by right]).
Qed.

Lemma only_writes_process_image (path_in path_out : string) :
  only_writes (out_path_of path_in path_out) (process_image path_in path_out).
Proof.
  unfold process_image.
  apply only_writes_bind; [apply only_writes_isfile|]. intros is_file.
  destruct (negb is_file); [apply only_writes_raise|].
  apply only_writes_bind; [apply only_writes_imread|]. intros [img|];
    [|apply only_writes_raise].
  destruct (shape img) as [|h [|wd rest]]; try apply only_writes_raise.
  apply only_writes_bind; [apply only_writes_print|]. intros _.
  apply only_writes_bind; [apply only_writes_bilateral|]. intros den.
  apply only_writes_bind; [apply only_writes_unsharp|]. intros sh.
  apply only_writes_bind; [apply only_writes_imwrite|]. intros _.
  apply only_writes_print.
Qed.

End Frame.

(** ** What a run that returns has done *)

Section Inversion.

Context `{cv : OpenCV}.

(** The sharpener's result does not depend on the world it runs in; it
    only logs its call to the blur. *)
Lemma unsharp_mask_world (img : ndarray Z) (amount : spec_float) (radius : number)
    (w v : World) :
  unsharp_mask img amount radius w
  = ((unsharp_mask img amount radius v).1,
     log (CallGaussianBlur img (0, 0) radius radius) w).
Proof.
  unfold unsharp_mask, mbind, M_bind, cv2_GaussianBlur, lift, mret, M_ret.
  destruct (GaussianBlur img (0, 0) radius radius) as [blurred|e]; [|reflexivity].
  destruct (nd.sub _ _) as [mask|e]; [|reflexivity].
  destruct (nd.add _ _) as [res|e]; reflexivity.
Qed.

Lemma unsharp_mask_returns (img sh : ndarray Z) (amount : spec_float)
    (radius : number) (w w' : World) :
  unsharp_mask img amount radius w = (Ok sh, w') →
  ∀ v, unsharp_mask img amount radius v
       = (Ok sh, log (CallGaussianBlur img (0, 0) radius radius) v).
Proof.
  intros H v. rewrite (unsharp_mask_world img amount radius v w), H. reflexivity.
Qed.

Lemma writer_run (path_in path_out : string) (img den sh : ndarray Z)
    (png : list byte) (w : World) :
  imencode ".png" sh = Ok png →
  (cv2_imwrite (out_path_of path_in path_out) sh ≫= λ _,
   print (done_line (out_path_of path_in path_out)))
    (after_stages path_in img den w)
  = (Ok tt, after_write path_in path_out img den sh png w).
Proof.
  intros He. unfold mbind, M_bind. rewrite cv2_imwrite_run, file_ext_out_path, He.
  unfold after_write, after_stages, log. cbn [fs stdout calls].
  destruct (can_open_for_write _ _); rewrite print_run; cbn [fs stdout calls];
    rewrite <- !app_assoc; reflexivity.
Qed.

Lemma writer_raises (path_in path_out : string) (img den sh : ndarray Z)
    (e : exn) (w : World) :
  imencode ".png" sh = Raise e →
  (cv2_imwrite (out_path_of path_in path_out) sh ≫= λ _,
   print (done_line (out_path_of path_in path_out)))
    (after_stages path_in img den w)
  = (Raise e,
     log (CallImwrite (out_path_of path_in path_out) sh)
         (after_stages path_in img den w)).
Proof.
  intros He. unfold mbind, M_bind. rewrite cv2_imwrite_run, file_ext_out_path, He.
  reflexivity.
Qed.

Lemma process_image_ok_inv (path_in path_out : string) (w w' : World) :
  process_image path_in path_out w = (Ok tt, w') →
  ∃ bytes img den sh png,
    fs w !! path_in = Some bytes
    ∧ imdecode bytes IMREAD_COLOR = Some img
    ∧ bilateralFilter img 9 75 75 = Ok den
    ∧ (∀ v, unsharp_mask den py_1_0 3 v
            = (Ok sh, log (CallGaussianBlur den (0, 0) 3 3) v))
    ∧ imencode ".png" sh = Ok png
    ∧ w' = after_write path_in path_out img den sh png w.
Proof.
  intros Hrun.
  destruct (fs w !! path_in) as [bytes|] eqn:Hf;
    [|by rewrite process_image_missing in Hrun].
  destruct (imdecode bytes IMREAD_COLOR) as [img|] eqn:Hd;
    [|by rewrite (process_image_undecodable _ _ _ _ Hf Hd) in Hrun].
  assert (Hstart : process_image path_in path_out w
    = (match shape img with
       | h :: wd :: _ =>
           print (reading_line path_in img) ≫= λ _,
           bilateral_denoise img 9 75 75 ≫= λ denoised,
           unsharp_mask denoised py_1_0 3 ≫= λ sharpened,
           cv2_imwrite (out_path_of path_in path_out) sharpened ≫= λ _,
           print (done_line (out_path_of path_in path_out))
       | _ => raise (ValueError "not enough values to unpack (expected 2)")
       end) (after_imread path_in w)).
  { unfold process_image.
    rewrite (M_bind_ok _ _ _ _ _ (os_path_isfile_run path_in w)), Hf.
    rewrite bool_decide_eq_true_2 by (by eexists). cbn [negb].
    rewrite (M_bind_ok _ _ _ _ _ (cv2_imread_run path_in IMREAD_COLOR w)), Hf, Hd.
    unfold reading_line. by destruct (shape img) as [|h [|wd rest]]. }
  destruct (shape img) as [|h [|wd rest]] eqn:Hs;
    [by rewrite Hstart in Hrun..|].
  destruct (bilateralFilter img 9 75 75) as [den|e] eqn:Hden.
  2:{ rewrite Hstart in Hrun.
      rewrite (M_bind_ok _ _ _ _ _ (print_run _ _)) in Hrun.
      erewrite M_bind_raise in Hrun
        by (rewrite bilateral_denoise_run, Hden; reflexivity).
      discriminate. }
  destruct (unsharp_mask den py_1_0 3 w) as [[sh|e] w2] eqn:Hsh.
  2:{ rewrite Hstart in Hrun.
      rewrite (M_bind_ok _ _ _ _ _ (print_run _ _)) in Hrun.
      erewrite M_bind_ok in Hrun
        by (rewrite bilateral_denoise_run, Hden; reflexivity).
      erewrite M_bind_raise in Hrun.
      - discriminate.
      - rewrite (unsharp_mask_world den py_1_0 3 _ w), Hsh. reflexivity. }
  pose proof (unsharp_mask_returns _ _ _ _ _ _ Hsh) as Hsh'.
  rewrite (process_image_reaches_writer _ _ _ _ _ _ _ _ _ _ Hf Hd Hs Hden Hsh')
    in Hrun.
  destruct (imencode ".png" sh) as [png|e] eqn:He.
  - rewrite (writer_run _ _ _ _ _ _ _ He) in Hrun. injection Hrun as <-.
    by exists bytes, img, den, sh, png.
  - by rewrite (writer_raises _ _ _ _ _ _ _ He) in Hrun.
Qed.

End Inversion.

(** ** The pipeline as a whole *)

Section PipelineOrder.

Context `{cv : OpenCV}.

(** C1.  For an 8-bit 3-channel image [img] the loader decoded, the run
    calls, in this order and nothing else, [imread], the bilateral filter on
    [img] with diameter 9 and both tolerances 75, the Gaussian blur of the
    sharpener on the denoised grid with sigma 3, and [imwrite] on the grid
    [sh] that [unsharp_mask] with amount 1.0 and radius 3 returns for the
    grid [den] that [bilateral_denoise] with 9, 75, 75 returns for [img];
    when the encoder accepts [sh] and the path can be written, the file
    holds the encoding of [sh]. *)
Theorem process_image_is_sharpen_after_denoise
    (path_in path_out : string) (w : World) (bytes : list byte)
    (img den sh : ndarray Z) (w1 w2 w3 w4 : World) :
  fs w !! path_in = Some bytes →
  imdecode bytes IMREAD_COLOR = Some img →
  is_bgr8 img = true →
  bilateral_denoise img 9 75 75 w1 = (Ok den, w2) →
  unsharp_mask den py_1_0 3 w3 = (Ok sh, w4) →
  ∃ r w',
    process_image path_in path_out w = (r, w')
    ∧ calls w' = calls w ++ [CallImread path_in IMREAD_COLOR;
                             CallBilateralFilter img 9 75 75;
                             CallGaussianBlur den (0, 0) 3 3;
                             CallImwrite (out_path_of path_in path_out) sh]
    ∧ (∀ png,
         imencode ".png" sh = Ok png →
         can_open_for_write (fs w) (out_path_of path_in path_out) = true →
         r = Ok tt
         ∧ fs w' = <[out_path_of path_in path_out := png]> (fs w)).
Proof.
  intros Hf Hd Himg Hden Hsh.
  destruct (is_bgr8_inv _ Himg) as ((h & wd & Hs) & _ & _).
  rewrite bilateral_denoise_run in Hden. injection Hden as Hden _.
  pose proof (unsharp_mask_returns _ _ _ _ _ _ Hsh) as Hsh'.
  rewrite (process_image_reaches_writer _ _ _ _ _ _ _ _ _ _ Hf Hd Hs Hden Hsh').
  destruct (imencode ".png" sh) as [png|e] eqn:He.
  - rewrite (writer_run _ _ _ _ _ _ _ He). eexists _, _. split; [reflexivity|].
    split; [reflexivity|].
    intros png' [= <-] Hw. split; [reflexivity|].
    unfold after_write. cbn [fs]. by rewrite Hw.
  - rewrite (writer_raises _ _ _ _ _ _ _ He). eexists _, _. split; [reflexivity|].
    split; [|discriminate].
    unfold after_stages, log. cbn [calls]. by rewrite <- app_assoc.
Qed.

End PipelineOrder.

Lemma process_image_is_sharpen_after_denoise_witness :
  ∃ r w',
    process_image (cv := toy.opencv) "/app/images/img-3.jpg" "/app/output" toy.world
    = (r, w')
    ∧ calls w' = calls toy.world
                 ++ [CallImread "/app/images/img-3.jpg" IMREAD_COLOR;
                     CallBilateralFilter toy.img_3 9 75 75;
                     CallGaussianBlur toy.img_3 (0, 0) 3 3;
                     CallImwrite
                       (out_path_of "/app/images/img-3.jpg" "/app/output")
                       toy.img_3_sharpened]
    ∧ (∀ png,
         imencode (OpenCV := toy.opencv) ".png" toy.img_3_sharpened = Ok png →
         can_open_for_write (OpenCV := toy.opencv) (fs toy.world)
           (out_path_of "/app/images/img-3.jpg" "/app/output") = true →
         r = Ok tt
         ∧ fs w' = <[out_path_of "/app/images/img-3.jpg" "/app/output" := png]>
                     (fs toy.world)).
Proof.
  apply (process_image_is_sharpen_after_denoise (cv := toy.opencv)
           "/app/images/img-3.jpg" "/app/output" toy.world toy.img_3_jpg
           toy.img_3 toy.img_3 toy.img_3_sharpened
           toy.world (log (CallBilateralFilter toy.img_3 9 75 75) toy.world)
           toy.world (log (CallGaussianBlur toy.img_3 (0, 0) 3 3) toy.world)).
  - vm_compute. reflexivity.
  - vm_compute. reflexivity.
  - vm_compute. reflexivity.
  - vm_compute. reflexivity.
  - vm_compute. reflexivity.
Defined.

(** ** The sharpener *)

Lemma sample_Some (a : ndarray Z) (i j c : nat) (x : Z) :
  sample a i j c = Some x →
  ∃ h w ch, shape a = [h; w; ch]
            ∧ (i < h ∧ j < w ∧ c < ch)%nat
            ∧ data a !! ((i * w + j) * ch + c)%nat = Some x.
Proof.
  unfold sample.
  destruct (shape a) as [|h [|w [|ch [|? ?]]]]; try discriminate.
  destruct (decide _) as [Hb|]; [|discriminate].
  intros Hx. by exists h, w, ch.
Qed.

Lemma sample_at (a : ndarray Z) (h w ch i j c : nat) :
  shape a = [h; w; ch] → (i < h ∧ j < w ∧ c < ch)%nat →
  sample a i j c = data a !! ((i * w + j) * ch + c)%nat.
Proof.
  intros Hs Hb. unfold sample. rewrite Hs.
  destruct (decide _) as [|Hn]; [reflexivity | by destruct Hn].
Qed.

Section Sharpener.

Context `{cv : OpenCV} {contract : OpenCVContract cv}.

(** C2.  For a well-formed image (8-bit ones among them) on which the
    Gaussian blur, called with kernel size [(0, 0)] and both sigmas equal to
    [radius], returns [blurred]: [unsharp_mask] returns an 8-bit array of
    the same shape whose sample at every pixel and channel is
    [sharpen_value amount original blurred], that is the original plus
    [amount] times (original minus blurred) in float32, clipped to
    [0, 255] and stored as an unsigned byte. *)
Theorem unsharp_mask_formula (img blurred : ndarray Z) (amount : spec_float)
    (radius : number) (w : World) :
  well_formed img = true →
  GaussianBlur img (0, 0) radius radius = Ok blurred →
  ∃ out,
    unsharp_mask img amount radius w
    = (Ok out, log (CallGaussianBlur img (0, 0) radius radius) w)
    ∧ shape out = shape img
    ∧ dtype_of out = uint8
    ∧ ∀ i j c o,
        sample img i j c = Some o →
        ∃ b, sample blurred i j c = Some b
             ∧ sample out i j c = Some (sharpen_value amount o b).
Proof.
  intros Hwf Hb.
  destruct (GaussianBlur_same _ _ _ _ _ Hwf Hb) as (Hs & Ht & Hwfb).
  eexists. split; [by apply unsharp_mask_run|].
  split; [reflexivity|]. split; [reflexivity|].
  intros i j c o Ho.
  destruct (sample_Some _ _ _ _ _ Ho) as (h & wd & ch & Hsh & Hbd & Hd).
  assert (Hlen : length (data blurred) = length (data img)).
  { rewrite (well_formed_length _ Hwf), (well_formed_length _ Hwfb). by rewrite Hs. }
  destruct (lookup_lt_is_Some_2 (data blurred) ((i * wd + j) * ch + c)%nat)
    as [b Hbl].
  { rewrite Hlen. by apply lookup_lt_is_Some_1; eexists. }
  exists b. split.
  - rewrite (sample_at blurred h wd ch) by (by rewrite ?Hs). exact Hbl.
  - rewrite (sample_at _ h wd ch) by done.
    cbn [data]. rewrite lookup_zip_with, Hd, Hbl. reflexivity.
Qed.

(** C3, as amended.  With [amount = 0] (of either sign), for a valid
    8-bit colour image and any radius, integer or not, that the Gaussian
    blur accepts (the call returns), [unsharp_mask] returns the input
    itself. *)
Theorem unsharp_mask_amount_zero (img blurred : ndarray Z) (s : bool)
    (radius : number) (w : World) :
  is_bgr8 img = true →
  GaussianBlur img (0, 0) radius radius = Ok blurred →
  unsharp_mask img (S754_zero s) radius w
  = (Ok img, log (CallGaussianBlur img (0, 0) radius radius) w).
Proof.
  intros Himg Hb.
  destruct (is_bgr8_inv _ Himg) as (_ & Ht & Hwf).
  destruct (GaussianBlur_same _ _ _ _ _ Hwf Hb) as (Hs & Htb & Hwfb).
  rewrite (unsharp_mask_run _ _ _ _ _ Hb Hs).
  rewrite zip_with_fst_id.
  - destruct img as [sh t d]. cbn in Ht. by rewrite Ht.
  - rewrite (well_formed_length _ Hwf), (well_formed_length _ Hwfb). by rewrite Hs.
  - intros x y Hx Hy. apply sharpen_value_amount_zero.
    + by apply (well_formed_uint8 img).
    + apply (well_formed_uint8 blurred); [done | by rewrite Htb | done].
Qed.

End Sharpener.

Lemma unsharp_mask_formula_witness :
  ∃ out,
    unsharp_mask (cv := toy.opencv) toy.img_3 py_1_0 3 toy.world
    = (Ok out, log (CallGaussianBlur toy.img_3 (0, 0) 3 3) toy.world)
    ∧ shape out = shape toy.img_3
    ∧ dtype_of out = uint8
    ∧ ∀ i j c o,
        sample toy.img_3 i j c = Some o →
        ∃ b, sample toy.img_3_blurred i j c = Some b
             ∧ sample out i j c = Some (sharpen_value py_1_0 o b).
Proof.
  apply (unsharp_mask_formula (cv := toy.opencv) (contract := toy_contract)
           toy.img_3 toy.img_3_blurred py_1_0 3 toy.world).
  - vm_compute. reflexivity.
  - vm_compute. reflexivity.
Defined.

Lemma unsharp_mask_amount_zero_witness :
  unsharp_mask (cv := toy.opencv) toy.img_3 (S754_zero false) 7 toy.world
  = (Ok toy.img_3, log (CallGaussianBlur toy.img_3 (0, 0) 7 7) toy.world).
Proof.
  apply (unsharp_mask_amount_zero (cv := toy.opencv) (contract := toy_contract)
           toy.img_3 (NdArray [1%nat; 2%nat; 3%nat] uint8 [50; 100; 0; 127; 5; 30])
           false 7 toy.world).
  - vm_compute. reflexivity.
  - vm_compute. reflexivity.
Defined.

(** C3, as stated, fails.  With [radius = 0] the blur is asked to derive
    its kernel from a sigma of 0 and raises, as [cv2.GaussianBlur] does for
    a kernel size of [(0, 0)] and a sigma that is not positive; the
    sharpener then raises too and returns no image, although [amount = 0]
    and the image is a valid 8-bit colour image. *)
Lemma unsharp_mask_amount_zero_radius_zero :
  is_bgr8 toy.img_3 = true
  ∧ unsharp_mask (cv := toy.opencv) toy.img_3 (S754_zero false) 0 toy.world
    = (Raise (cv2_error "GaussianBlur: the kernel size cannot be derived"),
       log (CallGaussianBlur toy.img_3 (0, 0) 0 0) toy.world)
  ∧ ¬ ∃ out w',
        unsharp_mask (cv := toy.opencv) toy.img_3 (S754_zero false) 0 toy.world
        = (Ok out, w').
Proof.
  assert (Hraise :
    unsharp_mask (cv := toy.opencv) toy.img_3 (S754_zero false) 0 toy.world
    = (Raise (cv2_error "GaussianBlur: the kernel size cannot be derived"),
       log (CallGaussianBlur toy.img_3 (0, 0) 0 0) toy.world)).
  { apply (unsharp_mask_blur_raises (cv := toy.opencv)). vm_compute. reflexivity. }
  split; [vm_compute; reflexivity|]. split; [exact Hraise|].
  intros (out & w' & H). rewrite Hraise in H. discriminate.
Qed.

(** ** Shape and range *)

Lemma length_zip_with_same {A B C : Type} (f : A → B → C) (xs : list A) (ys : list B) :
  length xs = length ys → length (zip_with f xs ys) = length xs.
Proof.
  revert ys. induction xs as [|x xs IH]; intros [|y ys] Hl; try discriminate;
    [reflexivity|].
  cbn. f_equal. apply IH. by injection Hl.
Qed.

Lemma elem_of_zip_with_sharpen (amount : spec_float) (xs ys : list Z) (v : Z) :
  v ∈ zip_with (sharpen_value amount) xs ys → 0 <= v <= 255.
Proof.
  intros Hv. apply elem_of_zip_with in Hv as (o & b & -> & _ & _).
  apply sharpen_value_range.
Qed.

Section ShapeAndRange.

Context `{cv : OpenCV} {contract : OpenCVContract cv}.

Lemma unsharp_mask_output (img sh : ndarray Z) (amount : spec_float)
    (radius : number) (w w' : World) :
  is_bgr8 img = true →
  unsharp_mask img amount radius w = (Ok sh, w') →
  shape sh = shape img ∧ is_bgr8 sh = true.
Proof.
  intros Himg Hrun.
  destruct (is_bgr8_inv _ Himg) as ((h & wd & Hs) & Ht & Hwf).
  destruct (unsharp_mask_cases img amount radius w Hwf)
    as [(e & _ & He)|(blurred & _ & Hsb & _ & Hwfb & Hok)].
  - rewrite He in Hrun. discriminate.
  - rewrite Hok in Hrun. injection Hrun as <- _.
    split; [reflexivity|].
    unfold is_bgr8, well_formed. cbn [shape dtype_of data]. rewrite Hs.
    apply andb_true_iff. split.
    + apply Nat.eqb_eq. rewrite length_zip_with_same.
      * by rewrite (well_formed_length _ Hwf), Hs.
      * rewrite (well_formed_length _ Hwf), (well_formed_length _ Hwfb).
        by rewrite Hsb.
    + apply forallb_forall. intros v Hv. apply in_range_uint8.
      apply list_elem_of_In in Hv. by apply elem_of_zip_with_sharpen in Hv.
Qed.

Lemma bilateral_denoise_output (img den : ndarray Z) (d : Z) (sc ss : number) (w w' : World) :
  is_bgr8 img = true →
  bilateral_denoise img d sc ss w = (Ok den, w') →
  shape den = shape img ∧ is_bgr8 den = true.
Proof.
  intros Himg Hrun.
  destruct (is_bgr8_inv _ Himg) as ((h & wd & Hs) & Ht & Hwf).
  rewrite bilateral_denoise_run in Hrun. injection Hrun as Hrun _.
  destruct (bilateralFilter_same _ _ _ _ _ Hwf Hrun) as (Hsd & Htd & Hwfd).
  split; [exact Hsd|].
  unfold is_bgr8. by rewrite Hsd, Hs, Htd, Ht.
Qed.

Lemma is_bgr8_range (a : ndarray Z) (x : Z) :
  is_bgr8 a = true → x ∈ data a → 0 <= x <= 255.
Proof.
  intros Ha. destruct (is_bgr8_inv _ Ha) as (_ & Ht & Hwf).
  by apply well_formed_uint8.
Qed.

(** C4.  For a valid 8-bit colour image, what the denoiser returns and what
    the sharpener returns each have the shape of the input (so its height
    and width), are valid 8-bit colour images, and hold only values in
    [0, 255]; run one after the other, the denoised and the sharpened grid
    both have the input's shape. *)
Theorem stages_keep_shape_and_range (img : ndarray Z) :
  is_bgr8 img = true →
  (∀ d sc ss w den w',
     bilateral_denoise img d sc ss w = (Ok den, w') →
     shape den = shape img ∧ is_bgr8 den = true
     ∧ ∀ x, x ∈ data den → 0 <= x <= 255)
  ∧ (∀ amount radius w sh w',
       unsharp_mask img amount radius w = (Ok sh, w') →
       shape sh = shape img ∧ is_bgr8 sh = true
       ∧ ∀ x, x ∈ data sh → 0 <= x <= 255)
  ∧ (∀ d sc ss amount radius w den w1 sh w2,
       bilateral_denoise img d sc ss w = (Ok den, w1) →
       unsharp_mask den amount radius w1 = (Ok sh, w2) →
       shape den = shape img ∧ shape sh = shape img
       ∧ ∀ x, x ∈ data sh → 0 <= x <= 255).
Proof.
  intros Himg. split; [|split].
  - intros d sc ss w den w' Hrun.
    destruct (bilateral_denoise_output _ _ _ _ _ _ _ Himg Hrun) as [Hs Hden].
    split; [exact Hs|]. split; [exact Hden|].
    intros x. by apply is_bgr8_range.
  - intros amount radius w sh w' Hrun.
    destruct (unsharp_mask_output _ _ _ _ _ _ Himg Hrun) as [Hs Hsh].
    split; [exact Hs|]. split; [exact Hsh|].
    intros x. by apply is_bgr8_range.
  - intros d sc ss amount radius w den w1 sh w2 Hrun1 Hrun2.
    destruct (bilateral_denoise_output _ _ _ _ _ _ _ Himg Hrun1) as [Hs Hden].
    destruct (unsharp_mask_output _ _ _ _ _ _ Hden Hrun2) as [Hs' Hsh].
    split; [exact Hs|]. split; [congruence|].
    intros x. by apply is_bgr8_range.
Qed.

End ShapeAndRange.

Lemma stages_keep_shape_and_range_witness :
  (∀ d sc ss w den w',
     bilateral_denoise (cv := toy.opencv) toy.img_3 d sc ss w = (Ok den, w') →
     shape den = shape toy.img_3 ∧ is_bgr8 den = true
     ∧ ∀ x, x ∈ data den → 0 <= x <= 255)
  ∧ (∀ amount radius w sh w',
       unsharp_mask (cv := toy.opencv) toy.img_3 amount radius w = (Ok sh, w') →
       shape sh = shape toy.img_3 ∧ is_bgr8 sh = true
       ∧ ∀ x, x ∈ data sh → 0 <= x <= 255)
  ∧ (∀ d sc ss amount radius w den w1 sh w2,
       bilateral_denoise (cv := toy.opencv) toy.img_3 d sc ss w = (Ok den, w1) →
       unsharp_mask (cv := toy.opencv) den amount radius w1 = (Ok sh, w2) →
       shape den = shape toy.img_3 ∧ shape sh = shape toy.img_3
       ∧ ∀ x, x ∈ data sh → 0 <= x <= 255).
Proof.
  apply (stages_keep_shape_and_range (cv := toy.opencv) (contract := toy_contract)
           toy.img_3).
  vm_compute. reflexivity.
Defined.

(** ** Failures of the loader *)

Section LoaderFailures.

Context `{cv : OpenCV}.

(** C5.  When the input path is not an existing file, the run raises
    [FileNotFoundError] and leaves the world as it found it: no call into
    [cv2] is made (no decode, denoise, blur or write), nothing is printed
    and no file is created. *)
Theorem missing_input_raises (path_in path_out : string) (w : World) :
  fs w !! path_in = None →
  process_image path_in path_out w
  = (Raise (FileNotFoundError ("File input tidak ditemukan: " +:+ path_in)), w).
Proof. apply process_image_missing. Qed.

(** C6.  When the input file exists and the decoder returns no image, the
    run raises [ValueError]; the only call into [cv2] is the [imread], so
    the denoiser, the sharpener and the writer do not run, no file is
    created or changed, and nothing is printed. *)
Theorem undecodable_input_raises (path_in path_out : string) (w : World)
    (bytes : list byte) :
  fs w !! path_in = Some bytes →
  imdecode bytes IMREAD_COLOR = None →
  ∃ msg w',
    process_image path_in path_out w = (Raise (ValueError msg), w')
    ∧ fs w' = fs w
    ∧ stdout w' = stdout w
    ∧ calls w' = calls w ++ [CallImread path_in IMREAD_COLOR].
Proof.
  intros Hf Hd. eexists _, _. split; [by eapply process_image_undecodable|].
  done.
Qed.

End LoaderFailures.

Lemma missing_input_raises_witness :
  process_image (cv := toy.opencv) "/app/images/none.jpg" "/app/output" toy.world
  = (Raise (FileNotFoundError
              ("File input tidak ditemukan: " +:+ "/app/images/none.jpg")),
     toy.world).
Proof.
  apply (missing_input_raises (cv := toy.opencv)
           "/app/images/none.jpg" "/app/output" toy.world).
  vm_compute. reflexivity.
Defined.

Lemma undecodable_input_raises_witness :
  ∃ msg w',
    process_image (cv := toy.opencv) "/app/images/empty.jpg" "/app/output" toy.world
    = (Raise (ValueError msg), w')
    ∧ fs w' = fs toy.world
    ∧ stdout w' = stdout toy.world
    ∧ calls w' = calls toy.world ++ [CallImread "/app/images/empty.jpg" IMREAD_COLOR].
Proof.
  apply (undecodable_input_raises (cv := toy.opencv)
           "/app/images/empty.jpg" "/app/output" toy.world []).
  - vm_compute. reflexivity.
  - vm_compute. reflexivity.
Defined.

(** ** The output path *)

Lemma out_name_img_3 (path_in : string) :
  posixpath.basename path_in = "img-3.jpg"%string →
  out_name_of path_in = "result_img-3.png"%string.
Proof. intros H. unfold out_name_of. rewrite H. reflexivity. Qed.

(** The default input of the script, whatever directory it lives in. *)
Lemma out_name_default_input `{cv : OpenCV} (BASE_DIR : string) :
  out_name_of (INPUT_PATH BASE_DIR) = "result_img-3.png"%string.
Proof.
  apply out_name_img_3. unfold INPUT_PATH, INPUT_IMAGE_NAME.
  apply basename_join. reflexivity.
Qed.

(** C7.  The writer is given, and writes, the file
    [join path_out ("result_" + stem + ".png")], with [stem] the base name
    of the input path without its extension.  In a run whose loader and
    stages succeed, the last call is [imwrite] on that path with the
    sharpened grid, and when the encoder accepts the grid and the path can
    be written the run returns, the file at that path holds the encoding,
    and the closing line names the path.  Whatever the run, that path is the
    only file it can create or change and the only one handed to [imwrite].
    The path is the output directory, a separator unless the directory is
    empty or ends in one, and the name, so its own base name is the name; an
    input whose base name is [img-3.jpg] gives [result_img-3.png]. *)
Theorem output_path_derivation `{cv : OpenCV} (path_in path_out : string) (w : World) :
  let out_name :=
    "result_" +:+ (posixpath.splitext (posixpath.basename path_in)).1 +:+ ".png" in
  let out_path := posixpath.join path_out out_name in
  let run := process_image path_in path_out w in
  (∀ bytes img den sh w1 w2,
     fs w !! path_in = Some bytes →
     imdecode bytes IMREAD_COLOR = Some img →
     is_bgr8 img = true →
     bilateralFilter img 9 75 75 = Ok den →
     unsharp_mask den py_1_0 3 w1 = (Ok sh, w2) →
     last (calls run.2) = Some (CallImwrite out_path sh)
     ∧ ∀ png,
         imencode ".png" sh = Ok png →
         can_open_for_write (fs w) out_path = true →
         run.1 = Ok tt
         ∧ fs run.2 = <[out_path := png]> (fs w)
         ∧ fs run.2 !! out_path = Some png
         ∧ last (stdout run.2)
           = Some ("Selesai. Hasil disimpan di: " +:+ out_path))
  ∧ (fs run.2 = fs w ∨ ∃ png, fs run.2 = <[out_path := png]> (fs w))
  ∧ (∀ q g, CallImwrite q g ∈ calls run.2 → CallImwrite q g ∈ calls w ∨ q = out_path)
  ∧ out_path = (if String.eqb path_out "" || posixpath.endswith_sep path_out
                then path_out +:+ out_name
                else path_out +:+ "/" +:+ out_name)
  ∧ posixpath.basename out_path = out_name
  ∧ (posixpath.basename path_in = "img-3.jpg"%string
     → out_name = "result_img-3.png"%string).
Proof.
  cbv zeta. split.
  - intros bytes img den sh w1 w2 Hf Hd Himg Hden Hsh.
    destruct (is_bgr8_inv _ Himg) as ((h & wd & Hs) & _ & _).
    pose proof (unsharp_mask_returns _ _ _ _ _ _ Hsh) as Hsh'.
    rewrite (process_image_reaches_writer _ _ _ _ _ _ _ _ _ _ Hf Hd Hs Hden Hsh').
    fold (out_name_of path_in). fold (out_path_of path_in path_out).
    destruct (imencode ".png" sh) as [png|e] eqn:He.
    + rewrite (writer_run _ _ _ _ _ _ _ He). cbn [fst snd].
      unfold after_write. cbn [fs stdout calls]. split.
      * by rewrite (last_app_cons _ [_; _; _]).
      * intros png' [= <-] Hw. rewrite Hw.
        split; [reflexivity|]. split; [reflexivity|].
        split; [apply fs_lookup_insert_eq|].
        by rewrite (last_app_cons _ [_]).
    + rewrite (writer_raises _ _ _ _ _ _ _ He). cbn [fst snd].
      split; [|discriminate].
      unfold log. cbn [calls]. by rewrite last_snoc.
  - destruct (process_image path_in path_out w) as [r w'] eqn:Hrun.
    destruct (only_writes_process_image path_in path_out _ _ _ Hrun) as [Hfs Hcalls].
    split; [exact Hfs|]. split; [exact Hcalls|].
    split; [apply join_no_sep, out_name_no_sep|].
    split; [apply basename_out_path | apply out_name_img_3].
Qed.

Lemma output_path_derivation_witness :
  last (calls (process_image (cv := toy.opencv)
                 "/app/images/img-3.jpg" "/app/output" toy.world).2)
  = Some (CallImwrite "/app/output/result_img-3.png" toy.img_3_sharpened)
  ∧ (process_image (cv := toy.opencv)
       "/app/images/img-3.jpg" "/app/output" toy.world).1 = Ok tt
  ∧ fs (process_image (cv := toy.opencv)
          "/app/images/img-3.jpg" "/app/output" toy.world).2
    = <["/app/output/result_img-3.png"%string
        := [x01; x02; x96; xff; x00; xff; x0f; x5a]]> (fs toy.world)
  ∧ fs (process_image (cv := toy.opencv)
          "/app/images/img-3.jpg" "/app/output" toy.world).2
      !! "/app/output/result_img-3.png"%string
    = Some [x01; x02; x96; xff; x00; xff; x0f; x5a]
  ∧ last (stdout (process_image (cv := toy.opencv)
                    "/app/images/img-3.jpg" "/app/output" toy.world).2)
    = Some ("Selesai. Hasil disimpan di: " +:+ "/app/output/result_img-3.png").
Proof.
  pose proof (proj1 (output_path_derivation (cv := toy.opencv)
                       "/app/images/img-3.jpg" "/app/output" toy.world)) as H.
  specialize (H toy.img_3_jpg toy.img_3 toy.img_3 toy.img_3_sharpened
                toy.world (log (CallGaussianBlur toy.img_3 (0, 0) 3 3) toy.world)).
  destruct H as [Hcall Hwrite]; [vm_compute; reflexivity..|].
  split; [exact Hcall|].
  apply Hwrite; vm_compute; reflexivity.
Defined.

Example output_path_example :
  let run := process_image (cv := toy.opencv)
               "/app/images/img-3.jpg" "/app/output" toy.world in
  run.1 = Ok tt
  ∧ fs run.2 !! "/app/output/result_img-3.png"%string
    = Some [x01; x02; x96; xff; x00; xff; x0f; x5a]
  ∧ stdout run.2
    = ["Membaca '/app/images/img-3.jpg' — resolusi: 2x1, dtype: uint8"%string;
       "Selesai. Hasil disimpan di: /app/output/result_img-3.png"%string].
Proof. vm_compute. repeat split. Qed.

(** The script run from [/app]: it reads [/app/images/img-3.jpg] and
    writes [/app/output/result_img-3.png], printing its three lines. *)
Example main_example :
  let run := main (cv := toy.opencv) (os := toy.os) "/app" toy.world in
  run.1 = Ok tt
  ∧ fs run.2 !! "/app/output/result_img-3.png"%string
    = Some [x01; x02; x96; xff; x00; xff; x0f; x5a]
  ∧ stdout run.2
    = ["--- HelloImageProject - proses mulai ---"%string;
       "Membaca '/app/images/img-3.jpg' — resolusi: 2x1, dtype: uint8"%string;
       "Selesai. Hasil disimpan di: /app/output/result_img-3.png"%string].
Proof. vm_compute. repeat split. Qed.

(** ** Failures of the writer *)

Section WriterFailures.

Context `{cv : OpenCV}.

(** An exception raised by [imwrite] does end the run, before the closing
    line is printed. *)
Lemma imwrite_raise_propagates (path_in path_out : string) (w : World)
    (bytes : list byte) (img den sh : ndarray Z) (e : exn) (w1 w2 w3 w4 : World) :
  fs w !! path_in = Some bytes →
  imdecode bytes IMREAD_COLOR = Some img →
  is_bgr8 img = true →
  bilateral_denoise img 9 75 75 w1 = (Ok den, w2) →
  unsharp_mask den py_1_0 3 w3 = (Ok sh, w4) →
  imencode ".png" sh = Raise e →
  ∃ w', process_image path_in path_out w = (Raise e, w')
        ∧ fs w' = fs w
        ∧ stdout w' = stdout w ++ [reading_line path_in img].
Proof.
  intros Hf Hd Himg Hden Hsh He.
  destruct (is_bgr8_inv _ Himg) as ((h & wd & Hs) & _ & _).
  rewrite bilateral_denoise_run in Hden. injection Hden as Hden _.
  pose proof (unsharp_mask_returns _ _ _ _ _ _ Hsh) as Hsh'.
  rewrite (process_image_reaches_writer _ _ _ _ _ _ _ _ _ _ Hf Hd Hs Hden Hsh').
  rewrite (writer_raises _ _ _ _ _ _ _ He). by eexists.
Qed.

(** A write that fails by [imwrite] returning [False] is not noticed: the
    run returns normally and prints the closing line, with no file written. *)
Lemma imwrite_false_is_dropped (path_in path_out : string) (w : World)
    (bytes png : list byte) (img den sh : ndarray Z) (w1 w2 w3 w4 : World) :
  fs w !! path_in = Some bytes →
  imdecode bytes IMREAD_COLOR = Some img →
  is_bgr8 img = true →
  bilateral_denoise img 9 75 75 w1 = (Ok den, w2) →
  unsharp_mask den py_1_0 3 w3 = (Ok sh, w4) →
  imencode ".png" sh = Ok png →
  can_open_for_write (fs w) (out_path_of path_in path_out) = false →
  ∃ w', process_image path_in path_out w = (Ok tt, w')
        ∧ fs w' = fs w
        ∧ stdout w' = stdout w ++ [reading_line path_in img;
                                  done_line (out_path_of path_in path_out)].
Proof.
  intros Hf Hd Himg Hden Hsh He Hw.
  destruct (is_bgr8_inv _ Himg) as ((h & wd & Hs) & _ & _).
  rewrite bilateral_denoise_run in Hden. injection Hden as Hden _.
  pose proof (unsharp_mask_returns _ _ _ _ _ _ Hsh) as Hsh'.
  rewrite (process_image_reaches_writer _ _ _ _ _ _ _ _ _ _ Hf Hd Hs Hden Hsh').
  rewrite (writer_run _ _ _ _ _ _ _ He). eexists. split; [reflexivity|].
  unfold after_write. cbn [fs stdout]. by rewrite Hw.
Qed.

End WriterFailures.

(** C8 (the code departs from the claim).  On an output directory that
    cannot be written, [imwrite] returns [False]; the run drops that value,
    returns normally and prints the closing line although no file exists at
    the path it names. *)
Theorem unwritable_output_reports_success :
  let run := process_image (cv := toy.opencv)
               "/app/images/img-3.jpg" "/readonly/output" toy.world in
  run.1 = Ok tt
  ∧ fs run.2 = fs toy.world
  ∧ fs run.2 !! "/readonly/output/result_img-3.png"%string = None
  ∧ last (stdout run.2)
    = Some "Selesai. Hasil disimpan di: /readonly/output/result_img-3.png"%string.
Proof.
  cbv zeta.
  destruct (imwrite_false_is_dropped (cv := toy.opencv)
              "/app/images/img-3.jpg" "/readonly/output" toy.world
              toy.img_3_jpg [x01; x02; x96; xff; x00; xff; x0f; x5a]
              toy.img_3 toy.img_3 toy.img_3_sharpened
              toy.world (log (CallBilateralFilter toy.img_3 9 75 75) toy.world)
              toy.world (log (CallGaussianBlur toy.img_3 (0, 0) 3 3) toy.world))
    as (w' & Hrun & Hfs & Hout); try (vm_compute; reflexivity).
  rewrite Hrun. cbn [fst snd]. rewrite Hfs, Hout.
  repeat split; vm_compute; reflexivity.
Qed.

(** ** Determinism *)

Lemma surjective_pairing_ok (x : result unit * World) :
  x.1 = Ok tt → x = (Ok tt, x.2).
Proof. destruct x as [r w]. cbn. by intros ->. Qed.

(** C9.  Two runs whose input files hold the same bytes, both returning
    and both allowed to write, leave the same bytes in their output files
    (whatever the two paths and whatever else differs between the two
    worlds).  The decoder, the filters and the encoder are functions of
    their arguments here, as they are taken to be of OpenCV. *)
Theorem process_image_deterministic `{cv : OpenCV}
    (path_in1 path_out1 path_in2 path_out2 : string) (w1 w2 w1' w2' : World)
    (bytes : list byte) :
  fs w1 !! path_in1 = Some bytes →
  fs w2 !! path_in2 = Some bytes →
  process_image path_in1 path_out1 w1 = (Ok tt, w1') →
  process_image path_in2 path_out2 w2 = (Ok tt, w2') →
  can_open_for_write (fs w1) (out_path_of path_in1 path_out1) = true →
  can_open_for_write (fs w2) (out_path_of path_in2 path_out2) = true →
  ∃ png,
    fs w1' !! out_path_of path_in1 path_out1 = Some png
    ∧ fs w2' !! out_path_of path_in2 path_out2 = Some png.
Proof.
  intros Hf1 Hf2 Hrun1 Hrun2 Hw1 Hw2.
  destruct (process_image_ok_inv _ _ _ _ Hrun1)
    as (b1 & img1 & den1 & sh1 & png1 & Hb1 & Hd1 & Hden1 & Hsh1 & He1 & ->).
  destruct (process_image_ok_inv _ _ _ _ Hrun2)
    as (b2 & img2 & den2 & sh2 & png2 & Hb2 & Hd2 & Hden2 & Hsh2 & He2 & ->).
  assert (b1 = bytes) as -> by congruence.
  assert (b2 = bytes) as -> by congruence.
  assert (img2 = img1) as -> by congruence.
  assert (den2 = den1) as -> by congruence.
  assert (sh2 = sh1) as ->.
  { specialize (Hsh1 w1). specialize (Hsh2 w1). congruence. }
  assert (png2 = png1) as -> by congruence.
  exists png1. unfold after_write. cbn [fs]. rewrite Hw1, Hw2.
  by rewrite !fs_lookup_insert_eq.
Qed.

Lemma process_image_deterministic_witness :
  ∃ png,
    fs (process_image (cv := toy.opencv)
          "/app/images/img-3.jpg" "/app/output" toy.world).2
      !! out_path_of "/app/images/img-3.jpg" "/app/output" = Some png
    ∧ fs (process_image (cv := toy.opencv)
            "/app/images/copy.jpg" "/tmp/out/" toy.world2).2
        !! out_path_of "/app/images/copy.jpg" "/tmp/out/" = Some png.
Proof.
  apply (process_image_deterministic (cv := toy.opencv)
           "/app/images/img-3.jpg" "/app/output"
           "/app/images/copy.jpg" "/tmp/out/"
           toy.world toy.world2 _ _ toy.img_3_jpg).
  - vm_compute. reflexivity.
  - vm_compute. reflexivity.
  - apply surjective_pairing_ok. vm_compute. reflexivity.
  - apply surjective_pairing_ok. vm_compute. reflexivity.
  - vm_compute. reflexivity.
  - vm_compute. reflexivity.
Defined.

(** ** The loader *)

Lemma extends_calls_bind {A B : Type} (m : M A) (k : A → M B) :
  extends_calls m → (∀ a, extends_calls (k a)) → extends_calls (m ≫= k).
Proof.
  intros Hm Hk w r w'. unfold mbind, M_bind.
  destruct (m w) as [[a|e] w1] eqn:Hmw.
  - intros Hkw. destruct (Hm _ _ _ Hmw) as [more1 H1].
    destruct (Hk a _ _ _ Hkw) as [more2 H2].
    exists (more1 ++ more2). by rewrite H2, H1, app_assoc.
  - intros [= <- <-]. exact (Hm _ _ _ Hmw).
Qed.

Section Loader.

Context `{cv : OpenCV}.

Lemma extends_calls_unsharp (img : ndarray Z) (amount : spec_float) (radius : number) :
  extends_calls (unsharp_mask img amount radius).
Proof.
  intros w r w'. rewrite (unsharp_mask_world img amount radius w w).
  intros [= _ <-]. by eexists.
Qed.

Lemma extends_calls_imwrite (p : string) (img : ndarray Z) :
  extends_calls (cv2_imwrite p img).
Proof.
  intros w r w'. rewrite cv2_imwrite_run.
  destruct (imencode _ _); [destruct (can_open_for_write _ _)|];
    intros [= _ <-]; by eexists.
Qed.

Lemma extends_calls_print (line : string) : extends_calls (print line).
Proof. intros w r w' [= _ <-]. exists []. cbn. by rewrite app_nil_r. Qed.

(** Once the loader has an image the run goes on to the denoiser with it. *)
Lemma process_image_loaded (path_in path_out : string) (w : World)
    (bytes : list byte) (img : ndarray Z) (h wd : nat) (rest : list nat) :
  fs w !! path_in = Some bytes →
  imdecode bytes IMREAD_COLOR = Some img →
  shape img = h :: wd :: rest →
  process_image path_in path_out w
  = (bilateral_denoise img 9 75 75 ≫= λ denoised,
     unsharp_mask denoised py_1_0 3 ≫= λ sharpened,
     cv2_imwrite (out_path_of path_in path_out) sharpened ≫= λ _,
     print (done_line (out_path_of path_in path_out)))
      (MkWorld (fs w) (stdout w ++ [reading_line path_in img])
               (calls w ++ [CallImread path_in IMREAD_COLOR])).
Proof.
  intros Hf Hd Hs. unfold process_image.
  rewrite (M_bind_ok _ _ _ _ _ (os_path_isfile_run path_in w)), Hf.
  rewrite bool_decide_eq_true_2 by (by eexists). cbn [negb].
  rewrite (M_bind_ok _ _ _ _ _ (cv2_imread_run path_in IMREAD_COLOR w)), Hf, Hd, Hs.
  rewrite (M_bind_ok _ _ _ _ _ (print_run _ _)).
  unfold reading_line. rewrite Hs. reflexivity.
Qed.

Context {contract : OpenCVContract cv}.

(** C10.  Whatever file the decoder can read under the forced-colour flag
    the program passes (grey and four-channel files among them), the image
    the loader obtains is a 3-channel 8-bit one, and the run does not stop
    at the loader: its first two calls are the [imread] with
    [IMREAD_COLOR] and the bilateral filter on that image, and the line it
    prints reports [uint8]. *)
Theorem loader_yields_bgr8 (path_in path_out : string) (w : World)
    (bytes : list byte) (img : ndarray Z) :
  fs w !! path_in = Some bytes →
  imdecode bytes IMREAD_COLOR = Some img →
  is_bgr8 img = true
  ∧ dtype_name (dtype_of img) = "uint8"%string
  ∧ ∃ r w' more,
      process_image path_in path_out w = (r, w')
      ∧ calls w' = calls w ++ CallImread path_in IMREAD_COLOR
                            :: CallBilateralFilter img 9 75 75 :: more.
Proof.
  intros Hf Hd.
  pose proof (imdecode_color _ _ Hd) as Himg.
  destruct (is_bgr8_inv _ Himg) as ((h & wd & Hs) & Ht & _).
  split; [exact Himg|]. split; [by rewrite Ht|].
  rewrite (process_image_loaded _ _ _ _ _ _ _ _ Hf Hd Hs).
  destruct (bilateralFilter img 9 75 75) as [den|e] eqn:Hb.
  - erewrite M_bind_ok by (rewrite bilateral_denoise_run, Hb; reflexivity).
    match goal with |- ∃ r w' more, ?X = _ ∧ _ =>
      destruct X as [r w'] eqn:Hrest end.
    assert (Hext : ∃ more, calls w'
      = calls (log (CallBilateralFilter img 9 75 75)
                 (MkWorld (fs w) (stdout w ++ [reading_line path_in img])
                    (calls w ++ [CallImread path_in IMREAD_COLOR]))) ++ more).
    { revert Hrest. apply extends_calls_bind; [apply extends_calls_unsharp|].
      intros sh. apply extends_calls_bind; [apply extends_calls_imwrite|].
      intros _. apply extends_calls_print. }
    destruct Hext as [more Hmore]. exists r, w', more. split; [reflexivity|].
    rewrite Hmore. cbn [log calls]. by rewrite <- !app_assoc.
  - erewrite M_bind_raise by (rewrite bilateral_denoise_run, Hb; reflexivity).
    eexists _, _, []. split; [reflexivity|].
    cbn [log calls]. by rewrite <- !app_assoc.
Qed.

End Loader.

Lemma loader_yields_bgr8_witness :
  is_bgr8 (NdArray [1%nat; 2%nat; 3%nat] uint8 [100; 100; 100; 200; 200; 200]) = true
  ∧ dtype_name
      (dtype_of (NdArray [1%nat; 2%nat; 3%nat] uint8 [100; 100; 100; 200; 200; 200]))
    = "uint8"%string
  ∧ ∃ r w' more,
      process_image (cv := toy.opencv) "/app/images/grey.png" "/app/output" toy.world
      = (r, w')
      ∧ calls w'
        = calls toy.world
          ++ CallImread "/app/images/grey.png" IMREAD_COLOR
             :: CallBilateralFilter
                  (NdArray [1%nat; 2%nat; 3%nat] uint8 [100; 100; 100; 200; 200; 200])
                  9 75 75
             :: more.
Proof.
  apply (loader_yields_bgr8 (cv := toy.opencv) (contract := toy_contract)
           "/app/images/grey.png" "/app/output" toy.world toy.grey_png).
  - vm_compute. reflexivity.
  - vm_compute. reflexivity.
Defined.

(** * Further results *)

(** ** The sharpener at its operating point *)

Lemma sample_elem_of (a : ndarray Z) (i j c : nat) (x : Z) :
  sample a i j c = Some x → x ∈ data a.
Proof.
  intros H. destruct (sample_Some _ _ _ _ _ H) as (h & w & ch & _ & _ & Hd).
  by eapply list_elem_of_lookup_2.
Qed.

Section SharpenerAtOne.

Context `{cv : OpenCV} {contract : OpenCVContract cv}.

(** What the sharpener returns for a valid 8-bit colour image on which the
    blur returns, sample by sample, with the samples' ranges. *)
Lemma unsharp_mask_samples (img blurred : ndarray Z) (amount : spec_float)
    (radius : number) (w : World) :
  is_bgr8 img = true →
  GaussianBlur img (0, 0) radius radius = Ok blurred →
  ∃ out,
    unsharp_mask img amount radius w
    = (Ok out, log (CallGaussianBlur img (0, 0) radius radius) w)
    ∧ ∀ i j c o,
        sample img i j c = Some o →
        ∃ b, sample blurred i j c = Some b
             ∧ sample out i j c = Some (sharpen_value amount o b)
             ∧ 0 <= o <= 255 ∧ 0 <= b <= 255.
Proof.
  intros Himg Hb.
  destruct (is_bgr8_inv _ Himg) as (_ & Ht & Hwf).
  destruct (GaussianBlur_same _ _ _ _ _ Hwf Hb) as (Hs & Htb & Hwfb).
  eexists. split; [by apply unsharp_mask_run|].
  intros i j c o Ho.
  destruct (sample_Some _ _ _ _ _ Ho) as (h & wd & ch & Hsh & Hbd & Hd).
  assert (Hlen : length (data blurred) = length (data img)).
  { rewrite (well_formed_length _ Hwf), (well_formed_length _ Hwfb). by rewrite Hs. }
  destruct (lookup_lt_is_Some_2 (data blurred) ((i * wd + j) * ch + c)%nat)
    as [b Hbl].
  { rewrite Hlen. by apply lookup_lt_is_Some_1; eexists. }
  exists b. split; [|split; [|split]].
  - rewrite (sample_at blurred h wd ch) by (by rewrite ?Hs). exact Hbl.
  - rewrite (sample_at _ h wd ch) by done.
    cbn [data]. rewrite lookup_zip_with, Hd, Hbl. reflexivity.
  - apply (well_formed_uint8 img); [done..|]. by eapply list_elem_of_lookup_2.
  - apply (well_formed_uint8 blurred); [done | by rewrite Htb |].
    by eapply list_elem_of_lookup_2.
Qed.

(** X1.  With the default [amount = 1.0], on a valid 8-bit colour image,
    the float32 arithmetic of [unsharp_mask] rounds nothing: every sample of
    the result is the integer [2 * original - blurred] brought into
    [0, 255]. *)
Theorem unsharp_mask_amount_one_exact (img blurred : ndarray Z) (radius : number)
    (w : World) :
  is_bgr8 img = true →
  GaussianBlur img (0, 0) radius radius = Ok blurred →
  ∃ out,
    unsharp_mask img py_1_0 radius w
    = (Ok out, log (CallGaussianBlur img (0, 0) radius radius) w)
    ∧ ∀ i j c o,
        sample img i j c = Some o →
        ∃ b, sample blurred i j c = Some b
             ∧ sample out i j c = Some (Z.max 0 (Z.min 255 (2 * o - b))).
Proof.
  intros Himg Hb.
  destruct (unsharp_mask_samples img blurred py_1_0 radius w Himg Hb)
    as (out & Hrun & Hs).
  exists out. split; [exact Hrun|].
  intros i j c o Ho. destruct (Hs i j c o Ho) as (b & Hbl & Hout & Hro & Hrb).
  exists b. split; [exact Hbl|].
  rewrite Hout, sharpen_value_amount_one by assumption.
  unfold sharpen_exact_1. do 3 f_equal. lia.
Qed.

(** X2.  With [amount = 1.0], on a valid 8-bit colour image, sharpening
    moves no sample towards its blurred value: where the blur is not above
    the original the result is not below it, where the blur is not below
    the original the result is not above it, and where the two agree (a
    flat region) the sample is left as it is. *)
Theorem unsharp_mask_moves_away_from_blur (img blurred out : ndarray Z)
    (radius : number) (w w' : World) :
  is_bgr8 img = true →
  GaussianBlur img (0, 0) radius radius = Ok blurred →
  unsharp_mask img py_1_0 radius w = (Ok out, w') →
  ∀ i j c o b v,
    sample img i j c = Some o →
    sample blurred i j c = Some b →
    sample out i j c = Some v →
    (b <= o → o <= v) ∧ (o <= b → v <= o) ∧ (b = o → v = o).
Proof.
  intros Himg Hb Hrun i j c o b v Ho Hbl Hv.
  destruct (unsharp_mask_samples img blurred py_1_0 radius w Himg Hb)
    as (out' & Hrun' & Hs).
  rewrite Hrun' in Hrun. injection Hrun as -> _.
  destruct (Hs i j c o Ho) as (b' & Hbl' & Hout & Hro & Hrb).
  assert (b' = b) as -> by congruence.
  rewrite Hout in Hv. injection Hv as <-.
  rewrite sharpen_value_amount_one by assumption.
  unfold sharpen_exact_1. lia.
Qed.

End SharpenerAtOne.

Lemma unsharp_mask_amount_one_exact_witness :
  ∃ out,
    unsharp_mask (cv := toy.opencv) toy.img_3 py_1_0 3 toy.world
    = (Ok out, log (CallGaussianBlur toy.img_3 (0, 0) 3 3) toy.world)
    ∧ ∀ i j c o,
        sample toy.img_3 i j c = Some o →
        ∃ b, sample toy.img_3_blurred i j c = Some b
             ∧ sample out i j c = Some (Z.max 0 (Z.min 255 (2 * o - b))).
Proof.
  apply (unsharp_mask_amount_one_exact (cv := toy.opencv) (contract := toy_contract)
           toy.img_3 toy.img_3_blurred 3 toy.world).
  - vm_compute. reflexivity.
  - vm_compute. reflexivity.
Defined.

Lemma unsharp_mask_moves_away_from_blur_witness :
  (50 <= 100 → 100 <= 150) ∧ (100 <= 50 → 150 <= 100) ∧ (50 = 100 → 150 = 100).
Proof.
  refine (unsharp_mask_moves_away_from_blur (cv := toy.opencv)
            (contract := toy_contract)
            toy.img_3 toy.img_3_blurred toy.img_3_sharpened 3 toy.world
            (log (CallGaussianBlur toy.img_3 (0, 0) 3 3) toy.world)
            _ _ _ 0%nat 0%nat 0%nat 100 50 150 _ _ _).
  - vm_compute. reflexivity.
  - vm_compute. reflexivity.
  - vm_compute. reflexivity.
  - vm_compute. reflexivity.
  - vm_compute. reflexivity.
  - vm_compute. reflexivity.
Defined.

(** ** The two conversions *)

Lemma u8_of_f32_of_byte (o : Z) :
  0 <= o <= 255 → np.u8_of_f32 (np.f32_of_Z o) = o.
Proof.
  intros Ho. apply Z.eqb_eq.
  apply (forall_bytes1 (λ x, np.u8_of_f32 x.2 =? x.1)); [|assumption].
  vm_compute. reflexivity.
Qed.

(** X3.  On a well-formed 8-bit array, [astype(np.float32)] followed by
    [astype(np.uint8)], the two conversions [unsharp_mask] brackets its
    arithmetic with, gives the array back: float32 holds every byte
    exactly. *)
Theorem astype_round_trip (a : ndarray Z) :
  well_formed a = true →
  dtype_of a = uint8 →
  nd.astype_uint8 (nd.astype_float32 a) = a.
Proof.
  intros Hwf Ht. destruct a as [sh t d]. cbn in Ht. subst t.
  unfold nd.astype_uint8, nd.astype_float32. cbn [shape data]. f_equal.
  rewrite <- list_fmap_compose.
  assert (Hr : ∀ x, x ∈ d → 0 <= x <= 255).
  { intros x Hx. by apply (well_formed_uint8 (NdArray sh uint8 d)). }
  clear Hwf. induction d as [|x d IH]; [reflexivity|].
  cbn [fmap list_fmap compose]. f_equal.
  - apply u8_of_f32_of_byte, Hr. constructor.
  - apply IH. intros y Hy. apply Hr. by constructor.
Qed.

Lemma astype_round_trip_witness :
  nd.astype_uint8 (nd.astype_float32 toy.img_3) = toy.img_3.
Proof.
  apply (astype_round_trip toy.img_3).
  - vm_compute. reflexivity.
  - reflexivity.
Defined.

(** ** The input file is safe *)

Lemma out_name_ne_basename (path_in : string) :
  out_name_of path_in ≠ posixpath.basename path_in.
Proof.
  unfold out_name_of. intros H.
  pose proof (splitext_fst_no_sep _ (basename_no_sep path_in)) as Hsep.
  remember (posixpath.basename path_in) as b eqn:Hb. clear Hb.
  assert (Hsplit : (posixpath.splitext b).1
                   = "result_" +:+ (posixpath.splitext b).1).
  { rewrite <- H at 1. rewrite <- append_assoc.
    change (".png"%string) with ("." +:+ "png").
    rewrite splitext_stem_ext; [reflexivity| |reflexivity|reflexivity|reflexivity].
    rewrite rfind_app_none by exact Hsep. reflexivity. }
  apply (f_equal String.length) in Hsplit. rewrite length_app in Hsplit.
  cbn [String.length] in Hsplit. lia.
Qed.

Lemma out_path_ne_input (path_in path_out : string) :
  out_path_of path_in path_out ≠ path_in.
Proof.
  intros H. apply (out_name_ne_basename path_in).
  rewrite <- (basename_out_path path_in path_out). by rewrite H.
Qed.

(** X4.  The path a run writes to is never the same path as its input,
    whatever the two arguments are; and unless the two paths name one file
    (the output path being a link to the input, or the reverse) the run
    leaves the content of its input file as it was. *)
Theorem output_path_is_not_input_path `{cv : OpenCV} (path_in path_out : string)
    (w : World) :
  let run := process_image path_in path_out w in
  out_path_of path_in path_out ≠ path_in
  ∧ (resolve (fs w) (out_path_of path_in path_out) ≠ resolve (fs w) path_in →
     fs run.2 !! path_in = fs w !! path_in).
Proof.
  cbv zeta. split; [apply out_path_ne_input|]. intros Hne.
  destruct (process_image path_in path_out w) as [r w'] eqn:Hrun.
  destruct (only_writes_process_image path_in path_out _ _ _ Hrun)
    as [[Hfs|[png Hfs]] _]; cbn [snd]; rewrite Hfs; [reflexivity|].
  apply fs_lookup_insert_ne. intros H. by apply Hne.
Qed.

(** ** Running again *)

Section Again.

Context `{cv : OpenCV}.

Lemma process_image_short_shape (path_in path_out : string) (w : World)
    (bytes : list byte) (img : ndarray Z) :
  fs w !! path_in = Some bytes →
  imdecode bytes IMREAD_COLOR = Some img →
  (length (shape img) < 2)%nat →
  process_image path_in path_out w
  = (Raise (ValueError "not enough values to unpack (expected 2)"),
     after_imread path_in w).
Proof.
  intros Hf Hd Hs. unfold process_image.
  rewrite (M_bind_ok _ _ _ _ _ (os_path_isfile_run path_in w)), Hf.
  rewrite bool_decide_eq_true_2 by (by eexists). cbn [negb].
  rewrite (M_bind_ok _ _ _ _ _ (cv2_imread_run path_in IMREAD_COLOR w)), Hf, Hd.
  destruct (shape img) as [|h [|wd rest]]; [reflexivity..|].
  cbn [length] in Hs. lia.
Qed.

(** X5.  When the output path and the input path do not name one file,
    running the pipeline a second time on the world the first run left,
    with the same arguments, succeeds again and leaves every file as the
    first run left it. *)
Theorem rerun_changes_no_file (path_in path_out : string) (w w1 : World) :
  resolve (fs w) (out_path_of path_in path_out) ≠ resolve (fs w) path_in →
  process_image path_in path_out w = (Ok tt, w1) →
  ∃ w2, process_image path_in path_out w1 = (Ok tt, w2) ∧ fs w2 = fs w1.
Proof.
  intros Hne Hrun.
  destruct (process_image_ok_inv _ _ _ _ Hrun)
    as (bytes & img & den & sh & png & Hf & Hd & Hden & Hsh & He & ->).
  assert (Hs : ∃ h wd rest, shape img = h :: wd :: rest).
  { destruct (shape img) as [|h [|wd rest]] eqn:Hs; [| |by eauto].
    - rewrite (process_image_short_shape _ _ _ _ _ Hf Hd) in Hrun;
        [discriminate | rewrite Hs; cbn; lia].
    - rewrite (process_image_short_shape _ _ _ _ _ Hf Hd) in Hrun;
        [discriminate | rewrite Hs; cbn; lia]. }
  destruct Hs as (h & wd & rest & Hs).
  set (out := out_path_of path_in path_out).
  set (w1 := after_write path_in path_out img den sh png w).
  assert (Hfs1 : fs w1 = fs w ∧ can_open_for_write (fs w) out = false
                 ∨ fs w1 = <[out := png]> (fs w)).
  { unfold w1, after_write. cbn [fs]. fold out.
    destruct (can_open_for_write (fs w) out); [by right | by left]. }
  assert (Hf1 : fs w1 !! path_in = Some bytes).
  { destruct Hfs1 as [[-> _]| ->]; [exact Hf|].
    rewrite fs_lookup_insert_ne by (intros H; by apply Hne). exact Hf. }
  rewrite (process_image_reaches_writer _ _ _ _ _ _ _ _ _ _ Hf1 Hd Hs Hden Hsh).
  rewrite (writer_run _ _ _ _ _ _ _ He). eexists. split; [reflexivity|].
  unfold after_write at 1. cbn [fs]. fold out.
  destruct Hfs1 as [[Heq Hno]| Heq]; rewrite Heq.
  - by rewrite Hno.
  - destruct (can_open_for_write _ _); [apply fs_insert_insert_eq | reflexivity].
Qed.

(** X6.  A run that returns normally has read an existing, decodable
    input, printed exactly two lines (the report of the image, then the
    closing line naming the output path) and made exactly four calls into
    OpenCV, in the order read, denoise, blur, write. *)
Theorem normal_return_trace (path_in path_out : string) (w w' : World) :
  process_image path_in path_out w = (Ok tt, w') →
  ∃ bytes img den sh,
    fs w !! path_in = Some bytes
    ∧ imdecode bytes IMREAD_COLOR = Some img
    ∧ stdout w' = stdout w ++ [reading_line path_in img;
                              done_line (out_path_of path_in path_out)]
    ∧ calls w' = calls w ++ [CallImread path_in IMREAD_COLOR;
                             CallBilateralFilter img 9 75 75;
                             CallGaussianBlur den (0, 0) 3 3;
                             CallImwrite (out_path_of path_in path_out) sh].
Proof.
  intros Hrun.
  destruct (process_image_ok_inv _ _ _ _ Hrun)
    as (bytes & img & den & sh & png & Hf & Hd & _ & _ & _ & ->).
  by exists bytes, img, den, sh.
Qed.

End Again.

Lemma rerun_changes_no_file_witness :
  ∃ w2,
    process_image (cv := toy.opencv) "/app/images/img-3.jpg" "/app/output"
      (process_image (cv := toy.opencv)
         "/app/images/img-3.jpg" "/app/output" toy.world).2
    = (Ok tt, w2)
    ∧ fs w2 = fs (process_image (cv := toy.opencv)
                    "/app/images/img-3.jpg" "/app/output" toy.world).2.
Proof.
  apply (rerun_changes_no_file (cv := toy.opencv)
           "/app/images/img-3.jpg" "/app/output" toy.world).
  - vm_compute. discriminate.
  - apply surjective_pairing_ok. vm_compute. reflexivity.
Defined.

Lemma normal_return_trace_witness :
  ∃ bytes img den sh,
    fs toy.world !! "/app/images/img-3.jpg"%string = Some bytes
    ∧ imdecode (OpenCV := toy.opencv) bytes IMREAD_COLOR = Some img
    ∧ stdout (process_image (cv := toy.opencv)
                "/app/images/img-3.jpg" "/app/output" toy.world).2
      = stdout toy.world
        ++ [reading_line "/app/images/img-3.jpg" img;
            done_line (out_path_of "/app/images/img-3.jpg" "/app/output")]
    ∧ calls (process_image (cv := toy.opencv)
               "/app/images/img-3.jpg" "/app/output" toy.world).2
      = calls toy.world
        ++ [CallImread "/app/images/img-3.jpg" IMREAD_COLOR;
            CallBilateralFilter img 9 75 75;
            CallGaussianBlur den (0, 0) 3 3;
            CallImwrite (out_path_of "/app/images/img-3.jpg" "/app/output") sh].
Proof.
  apply (normal_return_trace (cv := toy.opencv)
           "/app/images/img-3.jpg" "/app/output" toy.world).
  apply surjective_pairing_ok. vm_compute. reflexivity.
Defined.

(** ** Failures of the stages *)

Section StageFailures.

Context `{cv : OpenCV}.

Lemma process_image_denoiser_raises (path_in path_out : string) (w : World)
    (bytes : list byte) (img : ndarray Z) (h wd : nat) (rest : list nat) (e : exn) :
  fs w !! path_in = Some bytes →
  imdecode bytes IMREAD_COLOR = Some img →
  shape img = h :: wd :: rest →
  bilateralFilter img 9 75 75 = Raise e →
  process_image path_in path_out w
  = (Raise e,
     MkWorld (fs w) (stdout w ++ [reading_line path_in img])
             (calls w ++ [CallImread path_in IMREAD_COLOR;
                          CallBilateralFilter img 9 75 75])).
Proof.
  intros Hf Hd Hs Hb.
  rewrite (process_image_loaded _ _ _ _ _ _ _ _ Hf Hd Hs).
  erewrite M_bind_raise by (rewrite bilateral_denoise_run, Hb; reflexivity).
  unfold log. cbn [fs stdout calls]. by rewrite <- app_assoc.
Qed.

Lemma process_image_sharpener_raises (path_in path_out : string) (w : World)
    (bytes : list byte) (img den : ndarray Z) (h wd : nat) (rest : list nat)
    (e : exn) (w0 : World) :
  fs w !! path_in = Some bytes →
  imdecode bytes IMREAD_COLOR = Some img →
  shape img = h :: wd :: rest →
  bilateralFilter img 9 75 75 = Ok den →
  (unsharp_mask den py_1_0 3 w0).1 = Raise e →
  process_image path_in path_out w
  = (Raise e, after_stages path_in img den w).
Proof.
  intros Hf Hd Hs Hb Hg.
  rewrite (process_image_loaded _ _ _ _ _ _ _ _ Hf Hd Hs).
  erewrite M_bind_ok by (rewrite bilateral_denoise_run, Hb; reflexivity).
  erewrite M_bind_raise
    by (rewrite (unsharp_mask_world den py_1_0 3 _ w0), Hg; reflexivity).
  unfold after_stages, log. cbn [fs stdout calls]. by rewrite <- !app_assoc.
Qed.

(** X7.  When the bilateral filter, or the Gaussian blur inside the
    sharpener, raises on the loaded image, the run raises that same
    exception: it is not caught, nothing is written, [imwrite] is not
    called, and the only line printed is the one reporting the image. *)
Theorem stage_failure_stops_run (path_in path_out : string) (w : World)
    (bytes : list byte) (img : ndarray Z) (e : exn) :
  fs w !! path_in = Some bytes →
  imdecode bytes IMREAD_COLOR = Some img →
  is_bgr8 img = true →
  (bilateralFilter img 9 75 75 = Raise e
   ∨ ∃ den, bilateralFilter img 9 75 75 = Ok den
            ∧ GaussianBlur den (0, 0) 3 3 = Raise e) →
  ∃ w',
    process_image path_in path_out w = (Raise e, w')
    ∧ fs w' = fs w
    ∧ stdout w' = stdout w ++ [reading_line path_in img]
    ∧ ∀ q g, CallImwrite q g ∈ calls w' → CallImwrite q g ∈ calls w.
Proof.
  intros Hf Hd Himg Hfail.
  destruct (is_bgr8_inv _ Himg) as ((h & wd & Hs) & _ & _).
  destruct Hfail as [Hb|(den & Hb & Hg)].
  - rewrite (process_image_denoiser_raises _ _ _ _ _ _ _ _ _ Hf Hd Hs Hb).
    eexists. split; [reflexivity|]. split; [reflexivity|]. split; [reflexivity|].
    intros q g. cbn [calls]. rewrite elem_of_app. intros [H|H]; [exact H|].
    apply elem_of_cons in H as [H|H]; [discriminate|].
    apply list_elem_of_singleton in H. discriminate.
  - rewrite (process_image_sharpener_raises _ _ w _ _ _ _ _ _ _ w Hf Hd Hs Hb)
      by (by rewrite (unsharp_mask_blur_raises _ _ _ _ _ Hg)).
    eexists. split; [reflexivity|]. split; [reflexivity|]. split; [reflexivity|].
    intros q g. unfold after_stages. cbn [calls]. rewrite elem_of_app.
    intros [H|H]; [exact H|].
    apply elem_of_cons in H as [H|H]; [discriminate|].
    apply elem_of_cons in H as [H|H]; [discriminate|].
    apply list_elem_of_singleton in H. discriminate.
Qed.

(** X8.  A run that raises, at whatever step, has written nothing, and
    it has not printed the closing line: it printed either nothing or only
    the line reporting the image. *)
Theorem raising_run_writes_nothing (path_in path_out : string) (w w' : World)
    (e : exn) :
  process_image path_in path_out w = (Raise e, w') →
  fs w' = fs w
  ∧ (stdout w' = stdout w
     ∨ ∃ img, stdout w' = stdout w ++ [reading_line path_in img]).
Proof.
  intros Hrun.
  destruct (fs w !! path_in) as [bytes|] eqn:Hf.
  2:{ rewrite (process_image_missing _ _ _ Hf) in Hrun.
      injection Hrun as _ <-. by split; [|left]. }
  destruct (imdecode bytes IMREAD_COLOR) as [img|] eqn:Hd.
  2:{ rewrite (process_image_undecodable _ _ _ _ Hf Hd) in Hrun.
      injection Hrun as _ <-. by split; [|left]. }
  destruct (shape img) as [|h [|wd rest]] eqn:Hs.
  1,2: rewrite (process_image_short_shape _ _ _ _ _ Hf Hd) in Hrun
         by (rewrite Hs; cbn; lia);
       injection Hrun as _ <-; by split; [|left].
  destruct (bilateralFilter img 9 75 75) as [den|e1] eqn:Hb.
  2:{ rewrite (process_image_denoiser_raises _ _ _ _ _ _ _ _ _ Hf Hd Hs Hb) in Hrun.
      injection Hrun as _ <-. split; [reflexivity|]. right. by exists img. }
  destruct (unsharp_mask den py_1_0 3 w) as [[sh|e2] w2] eqn:Hsh.
  2:{ rewrite (process_image_sharpener_raises _ _ w _ _ _ _ _ _ e2 w Hf Hd Hs Hb)
        in Hrun by (by rewrite Hsh).
      injection Hrun as _ <-. split; [reflexivity|]. right. by exists img. }
  pose proof (unsharp_mask_returns _ _ _ _ _ _ Hsh) as Hsh'.
  rewrite (process_image_reaches_writer _ _ _ _ _ _ _ _ _ _ Hf Hd Hs Hb Hsh')
    in Hrun.
  destruct (imencode ".png" sh) as [png|e3] eqn:He.
  - rewrite (writer_run _ _ _ _ _ _ _ He) in Hrun. discriminate.
  - rewrite (writer_raises _ _ _ _ _ _ _ He) in Hrun.
    injection Hrun as _ <-. split; [reflexivity|]. right. by exists img.
Qed.

End StageFailures.

Lemma stage_failure_stops_run_witness :
  ∃ w',
    process_image (cv := toy_failing_blur) "/app/images/img-3.jpg" "/app/output"
      toy.world
    = (Raise (cv2_error "GaussianBlur: rejected"), w')
    ∧ fs w' = fs toy.world
    ∧ stdout w' = stdout toy.world
                  ++ [reading_line "/app/images/img-3.jpg" toy.img_3]
    ∧ ∀ q g, CallImwrite q g ∈ calls w' → CallImwrite q g ∈ calls toy.world.
Proof.
  apply (stage_failure_stops_run (cv := toy_failing_blur)
           "/app/images/img-3.jpg" "/app/output" toy.world toy.img_3_jpg
           toy.img_3
           (cv2_error "GaussianBlur: rejected")).
  - vm_compute. reflexivity.
  - vm_compute. reflexivity.
  - vm_compute. reflexivity.
  - right. exists toy.img_3. split; vm_compute; reflexivity.
Defined.

Lemma raising_run_writes_nothing_witness :
  fs (after_imread "/app/images/empty.jpg" toy.world) = fs toy.world
  ∧ (stdout (after_imread "/app/images/empty.jpg" toy.world) = stdout toy.world
     ∨ ∃ img, stdout (after_imread "/app/images/empty.jpg" toy.world)
              = stdout toy.world ++ [reading_line "/app/images/empty.jpg" img]).
Proof.
  apply (raising_run_writes_nothing (cv := toy.opencv)
           "/app/images/empty.jpg" "/app/output" toy.world
           (after_imread "/app/images/empty.jpg" toy.world)
           (ValueError
              "Gagal membaca citra — format mungkin tidak didukung atau file korup.")).
  apply (process_image_undecodable (cv := toy.opencv) _ _ _ []).
  - vm_compute. reflexivity.
  - vm_compute. reflexivity.
Defined.

(** ** Names of output files *)

Lemma rfind_dot_name_no_sep (stem ext : string) :
  posixpath.rfind stem "/" < 0 →
  posixpath.rfind ext "/" < 0 →
  posixpath.rfind (stem +:+ "." +:+ ext) "/" < 0.
Proof.
  intros Hs He.
  rewrite rfind_app_none; [exact Hs|].
  rewrite append_cons, append_nil. cbn [posixpath.rfind].
  destruct (Z.ltb_spec (posixpath.rfind ext "/") 0); [|lia].
  vm_compute. reflexivity.
Qed.

(** X9.  An input called [stem.ext] in any directory (the stem not made of
    dots only, no further dot in the extension) is written as
    [result_stem.png]: the directory and the extension of the input leave
    no trace in the output name, so inputs that differ only in those share
    one output file. *)
Theorem out_name_of_stem_ext (dir stem ext : string) :
  posixpath.rfind stem "/" < 0 →
  posixpath.rfind ext "/" < 0 →
  posixpath.rfind ext "." < 0 →
  all_dots stem = false →
  out_name_of (posixpath.join dir (stem +:+ "." +:+ ext))
  = "result_" +:+ stem +:+ ".png".
Proof.
  intros Hs He Hd Hnd. unfold out_name_of.
  rewrite basename_join by (by apply rfind_dot_name_no_sep).
  by rewrite splitext_stem_ext.
Qed.

Lemma out_name_of_stem_ext_witness :
  out_name_of (posixpath.join "/data/in" ("holiday.2024" +:+ "." +:+ "jpeg"))
  = "result_" +:+ "holiday.2024" +:+ ".png".
Proof.
  apply (out_name_of_stem_ext "/data/in" "holiday.2024" "jpeg").
  - vm_compute. reflexivity.
  - vm_compute. reflexivity.
  - vm_compute. reflexivity.
  - vm_compute. reflexivity.
Defined.

Lemma all_dots_snoc (d : string) :
  all_dots d = true → String "." d = d +:+ ".".
Proof.
  induction d as [|a d IH]; [reflexivity|].
  cbn [all_dots]. intros H. apply andb_true_iff in H as [Ha Hd].
  apply Ascii.eqb_eq in Ha. subst a.
  rewrite append_cons, <- IH by exact Hd. reflexivity.
Qed.

Lemma all_dots_no_sep (d : string) :
  all_dots d = true → posixpath.rfind d "/" < 0.
Proof.
  induction d as [|a d IH]; [reflexivity|].
  cbn [all_dots posixpath.rfind]. intros H. apply andb_true_iff in H as [Ha Hd].
  apply Ascii.eqb_eq in Ha. subst a. specialize (IH Hd).
  destruct (Z.ltb_spec (posixpath.rfind d "/") 0); [|lia].
  vm_compute. reflexivity.
Qed.

(** A name made of leading dots and a rest without a dot has no extension. *)
Lemma splitext_leading_dots (dots rest : string) :
  all_dots dots = true →
  posixpath.rfind rest "." < 0 →
  posixpath.rfind rest "/" < 0 →
  posixpath.splitext (dots +:+ rest) = (dots +:+ rest, ""%string).
Proof.
  intros Hd Hr Hs. unfold posixpath.splitext.
  assert (Hsep : posixpath.rfind (dots +:+ rest) "/" = -1).
  { pose proof (rfind_ge dots "/"). pose proof (all_dots_no_sep _ Hd).
    rewrite rfind_app_none by exact Hs. lia. }
  rewrite Hsep.
  destruct dots as [|a d].
  - rewrite append_nil. pose proof (rfind_ge rest ".").
    destruct (Z.gtb_spec (posixpath.rfind rest ".") (-1)); [lia | reflexivity].
  - cbn [all_dots] in Hd. apply andb_true_iff in Hd as [Ha Hd'].
    apply Ascii.eqb_eq in Ha. subst a.
    rewrite (all_dots_snoc d Hd').
    rewrite rfind_app_none by exact Hr.
    rewrite rfind_app_found by (vm_compute; discriminate).
    change (posixpath.rfind "." ".") with 0.
    replace (Z.to_nat (Z.of_nat (String.length d) + 0 - (-1 + 1)))
      with (String.length d) by lia.
    pose proof (found_non_dot_app "" d ("." +:+ rest)) as Hf.
    rewrite append_nil in Hf. change (Z.of_nat (String.length "")) with (-1 + 1) in Hf.
    rewrite append_assoc, Hf, Hd'. cbn [negb]. by rewrite andb_false_r.
Qed.

(** X10.  An input whose name has no extension, in any directory, keeps
    its whole name in the output name; leading dots do not count as the
    start of an extension, so a hidden file [.name] is written as
    [result_.name.png]. *)
Theorem out_name_of_no_extension (dir dots rest : string) :
  all_dots dots = true →
  posixpath.rfind rest "." < 0 →
  posixpath.rfind rest "/" < 0 →
  out_name_of (posixpath.join dir (dots +:+ rest))
  = "result_" +:+ (dots +:+ rest) +:+ ".png".
Proof.
  intros Hd Hr Hs. unfold out_name_of.
  rewrite basename_join.
  - by rewrite splitext_leading_dots.
  - rewrite rfind_app_none by exact Hs. by apply all_dots_no_sep.
Qed.

Lemma out_name_of_no_extension_witness :
  out_name_of (posixpath.join "/data/in" (".." +:+ "scan"))
  = "result_" +:+ (".." +:+ "scan") +:+ ".png".
Proof.
  apply (out_name_of_no_extension "/data/in" ".." "scan").
  - vm_compute. reflexivity.
  - vm_compute. reflexivity.
  - vm_compute. reflexivity.
Defined.

(** ** [splitext] *)

Lemma take_drop (n : nat) (p : string) :
  posixpath.take n p +:+ posixpath.drop n p = p.
Proof.
  revert p. induction n as [|n IH]; intros [|a p]; try reflexivity.
  cbn [posixpath.take posixpath.drop]. rewrite append_cons. by rewrite IH.
Qed.

Lemma get_rfind (p : string) (c : ascii) :
  0 <= posixpath.rfind p c →
  String.get (Z.to_nat (posixpath.rfind p c)) p = Some c.
Proof.
  induction p as [|a p IH]; cbn [posixpath.rfind]; [lia|].
  destruct (Z.ltb_spec (posixpath.rfind p c) 0) as [Hk|Hk].
  - destruct (Ascii.eqb_spec a c) as [->|]; [reflexivity | lia].
  - intros _.
    replace (Z.to_nat (posixpath.rfind p c + 1))
      with (S (Z.to_nat (posixpath.rfind p c))) by lia.
    cbn [String.get]. by apply IH.
Qed.

Lemma get_0_drop (n : nat) (p : string) :
  String.get 0 (posixpath.drop n p) = String.get n p.
Proof.
  revert p. induction n as [|n IH]; intros [|a p]; try reflexivity.
  cbn [posixpath.drop String.get]. apply IH.
Qed.

Lemma rfind_drop_none (p : string) (c : ascii) (n : nat) :
  posixpath.rfind p c < Z.of_nat n →
  posixpath.rfind (posixpath.drop n p) c < 0.
Proof.
  revert n. induction p as [|a p IH]; intros [|n]; cbn [posixpath.drop];
    try (cbn [posixpath.rfind]; lia).
  cbn [posixpath.rfind]. intros H. apply IH.
  destruct (Z.ltb_spec (posixpath.rfind p c) 0); lia.
Qed.

Lemma append_nil_r (p : string) : p +:+ "" = p.
Proof.
  induction p as [|a p IH]; [reflexivity|]. rewrite append_cons. by f_equal.
Qed.

(** X11.  [os.path.splitext] only cuts: root and extension put together
    give the path back; the extension is empty or starts with a dot; and it
    holds no separator, so it is a part of the last component. *)
Theorem splitext_parts (p : string) :
  (posixpath.splitext p).1 +:+ (posixpath.splitext p).2 = p
  ∧ ((posixpath.splitext p).2 = ""%string
     ∨ String.get 0 (posixpath.splitext p).2 = Some "."%char)
  ∧ posixpath.rfind (posixpath.splitext p).2 "/" < 0.
Proof.
  unfold posixpath.splitext, posixpath.slice_to, posixpath.slice_from.
  pose proof (rfind_ge p "/") as Hge.
  destruct (Z.gtb_spec (posixpath.rfind p ".") (posixpath.rfind p "/")) as [Hgt|Hle];
    cbn [andb].
  - destruct (posixpath.found_non_dot _ _ _); cbn [fst snd].
    + split; [apply take_drop|]. split.
      * right. rewrite get_0_drop. apply get_rfind. lia.
      * apply rfind_drop_none. lia.
    + split; [apply append_nil_r|]. split; [by left | reflexivity].
  - cbn [fst snd]. split; [apply append_nil_r|]. split; [by left | reflexivity].
Qed.

(** ** The script *)

Lemma extends_stdout_bind {A B : Type} (m : M A) (k : A → M B) :
  extends_stdout m → (∀ a, extends_stdout (k a)) → extends_stdout (m ≫= k).
Proof.
  intros Hm Hk w r w'. unfold mbind, M_bind.
  destruct (m w) as [[a|e] w1] eqn:Hmw.
  - intros Hkw. destruct (Hm _ _ _ Hmw) as [more1 H1].
    destruct (Hk a _ _ _ Hkw) as [more2 H2].
    exists (more1 ++ more2). by rewrite H2, H1, app_assoc.
  - intros [= <- <-]. exact (Hm _ _ _ Hmw).
Qed.

Lemma extends_stdout_quiet {A : Type} (m : M A) :
  (∀ w r w', m w = (r, w') → stdout w' = stdout w) → extends_stdout m.
Proof.
  intros H w r w' Hm. exists []. rewrite app_nil_r. by eapply H.
Qed.

Lemma extends_stdout_print (line : string) : extends_stdout (print line).
Proof. intros w r w' [= _ <-]. by eexists. Qed.

Section Script.

Context `{cv : OpenCV}.

Lemma extends_stdout_unsharp (img : ndarray Z) (amount : spec_float) (radius : number) :
  extends_stdout (unsharp_mask img amount radius).
Proof.
  apply extends_stdout_quiet. intros w r w'.
  rewrite (unsharp_mask_world img amount radius w w). by intros [= _ <-].
Qed.

Lemma extends_stdout_imwrite (p : string) (img : ndarray Z) :
  extends_stdout (cv2_imwrite p img).
Proof.
  apply extends_stdout_quiet. intros w r w'. rewrite cv2_imwrite_run.
  destruct (imencode _ _); [destruct (can_open_for_write _ _)|];
    by intros [= _ <-].
Qed.

Lemma extends_stdout_process_image (path_in path_out : string) :
  extends_stdout (process_image path_in path_out).
Proof.
  unfold process_image.
  apply extends_stdout_bind;
    [apply extends_stdout_quiet; by intros w r w' [= _ <-]|].
  intros is_file. destruct (negb is_file);
    [apply extends_stdout_quiet; by intros w r w' [= _ <-]|].
  apply extends_stdout_bind;
    [apply extends_stdout_quiet; by intros w r w' [= _ <-]|].
  intros [img|]; [|apply extends_stdout_quiet; by intros w r w' [= _ <-]].
  destruct (shape img) as [|h [|wd rest]];
    try (apply extends_stdout_quiet; by intros w r w' [= _ <-]).
  apply extends_stdout_bind; [apply extends_stdout_print|]. intros _.
  apply extends_stdout_bind;
    [apply extends_stdout_quiet; by intros w r w' [= _ <-]|]. intros den.
  apply extends_stdout_bind; [apply extends_stdout_unsharp|]. intros sh.
  apply extends_stdout_bind; [apply extends_stdout_imwrite|]. intros _.
  apply extends_stdout_print.
Qed.

Context `{os : OperatingSystem} {os_contract : OperatingSystemContract os}.

(** [os.makedirs] prints nothing and calls nothing; it raises with the
    world as it was, or returns with at most directories added. *)
Lemma os_makedirs_cases (name : string) (w : World) :
  (∃ e, os_makedirs_exist_ok name w = (Raise e, w))
  ∨ (∃ w1, os_makedirs_exist_ok name w = (Ok tt, w1)
           ∧ stdout w1 = stdout w ∧ calls w1 = calls w
           ∧ contents (fs w1) = contents (fs w)
           ∧ links (fs w1) = links (fs w)).
Proof.
  unfold os_makedirs_exist_ok.
  destruct (bool_decide (name ∈ dirs (fs w))); [right; by exists w|].
  destruct (bool_decide (is_Some (fs w !! name))); [left; by eexists|].
  destruct (mkdirs (fs w) name) as [f'|e] eqn:Hm; [|left; by eexists].
  right. eexists. split; [reflexivity|]. cbn [fs stdout calls].
  destruct (mkdirs_keeps_files _ _ _ Hm) as [Hc Hl]. done.
Qed.

Lemma main_makedirs_raises (BASE_DIR : string) (w w1 : World) (e : exn) :
  os_makedirs_exist_ok (OUTPUT_DIR BASE_DIR) w = (Raise e, w1) →
  main BASE_DIR w = (Raise e, w1).
Proof. intros H. unfold main. by rewrite (M_bind_raise _ _ _ _ _ H). Qed.

Lemma main_makedirs_returns (BASE_DIR : string) (w w1 : World) :
  os_makedirs_exist_ok (OUTPUT_DIR BASE_DIR) w = (Ok tt, w1) →
  main BASE_DIR w
  = process_image (INPUT_PATH BASE_DIR) (OUTPUT_DIR BASE_DIR)
      (MkWorld (fs w1)
               (stdout w1 ++ ["--- HelloImageProject - proses mulai ---"%string])
               (calls w1)).
Proof.
  intros H. unfold main. rewrite (M_bind_ok _ _ _ _ _ H).
  by rewrite (M_bind_ok _ _ _ _ _ (print_run _ _)).
Qed.

(** X12.  The script, run from any directory [BASE_DIR] in any world,
    starts by creating [BASE_DIR/output].  When a regular file stands in
    that place it raises [FileExistsError], and whenever the creation
    raises the script stops there, with nothing printed (not even the
    banner), nothing called and nothing changed.  When the creation returns
    it has changed no regular file; the banner is then the first line
    printed, whatever happens next; the only file the run can create or
    change is [result_img-3.png] under [BASE_DIR/output]; and when
    [BASE_DIR/images/img-3.jpg] is not there the run stops with
    [FileNotFoundError] having printed the banner and nothing else. *)
Theorem main_behaviour (BASE_DIR : string) (w : World) :
  let banner := "--- HelloImageProject - proses mulai ---"%string in
  let out_dir := OUTPUT_DIR BASE_DIR in
  let run := main BASE_DIR w in
  (out_dir ∉ dirs (fs w) → is_Some (fs w !! out_dir) →
   ∃ msg, run = (Raise (FileExistsError msg), w))
  ∧ (∀ e w1, os_makedirs_exist_ok out_dir w = (Raise e, w1) →
             run = (Raise e, w) ∧ w1 = w)
  ∧ (∀ w1, os_makedirs_exist_ok out_dir w = (Ok tt, w1) →
       (∃ more, stdout run.2 = stdout w ++ banner :: more)
       ∧ (fs run.2 = fs w1
          ∨ ∃ png, fs run.2
                   = <[posixpath.join out_dir "result_img-3.png" := png]> (fs w1))
       ∧ contents (fs w1) = contents (fs w)
       ∧ links (fs w1) = links (fs w)
       ∧ (fs w1 !! INPUT_PATH BASE_DIR = None →
          run = (Raise (FileNotFoundError
                          ("File input tidak ditemukan: " +:+ INPUT_PATH BASE_DIR)),
                 MkWorld (fs w1) (stdout w ++ [banner]) (calls w)))).
Proof.
  cbv zeta. split; [|split].
  - intros Hd Hf. eexists. apply main_makedirs_raises.
    unfold os_makedirs_exist_ok.
    rewrite bool_decide_eq_false_2 by exact Hd.
    by rewrite bool_decide_eq_true_2 by exact Hf.
  - intros e w1 H.
    destruct (os_makedirs_cases (OUTPUT_DIR BASE_DIR) w)
      as [(e' & H')|(w1' & H' & _)]; rewrite H' in H; [|discriminate].
    injection H as -> <-. split; [by apply main_makedirs_raises | reflexivity].
  - intros w1 H.
    destruct (os_makedirs_cases (OUTPUT_DIR BASE_DIR) w)
      as [(e' & H')|(w1' & H' & Hout & Hcalls & Hc & Hl)]; rewrite H' in H;
      [discriminate|].
    injection H as <-. rewrite (main_makedirs_returns _ _ _ H').
    rewrite Hout, Hcalls.
    set (w0 := MkWorld (fs w1') _ (calls w)).
    split; [|split; [|split; [exact Hc|split; [exact Hl|]]]].
    + destruct (process_image _ _ w0) as [r w'] eqn:Hrun.
      destruct (extends_stdout_process_image _ _ _ _ _ Hrun) as [more Hmore].
      exists more. cbn [snd]. rewrite Hmore. unfold w0. cbn [stdout].
      by rewrite <- app_assoc.
    + destruct (process_image _ _ w0) as [r w'] eqn:Hrun.
      destruct (only_writes_process_image _ _ _ _ _ Hrun) as [Hfs _].
      unfold out_path_of in Hfs. rewrite out_name_default_input in Hfs.
      exact Hfs.
    + intros Hf. by apply process_image_missing.
Qed.

End Script.

Lemma toy_os_contract : OperatingSystemContract toy.os.
Proof.
  split. intros f name f'. cbn [mkdirs toy.os]. unfold toy.make_dirs.
  destruct (String.prefix _ _); [discriminate|]. by intros [= <-].
Qed.

Lemma main_behaviour_witness :
  ∃ msg,
    main (cv := toy.opencv) (os := toy.os) "/app" toy_blocked_world
    = (Raise (FileExistsError msg), toy_blocked_world).
Proof.
  apply (main_behaviour (cv := toy.opencv) (os := toy.os)
           (os_contract := toy_os_contract) "/app" toy_blocked_world).
  - vm_compute. set_solver.
  - vm_compute. by eexists.
Defined.

(** ** Links *)

(** With the output path a link to the input, the input file ends up
    holding the result. *)
Example linked_output_example :
  let run := process_image (cv := toy.opencv)
               "/app/images/img-3.jpg" "/app/output" toy_linked_world in
  fs toy_linked_world !! "/app/images/img-3.jpg"%string
  = Some [x01; x02; x64; xc8; x00; xff; x0a; x3c]
  ∧ run.1 = Ok tt
  ∧ fs run.2 !! "/app/images/img-3.jpg"%string
    = Some [x01; x02; x96; xff; x00; xff; x0f; x5a].
Proof. vm_compute. repeat split. Qed.

(** X13.  When the output path names the same file as the input path (it
    is a link to it), a run that returns and was allowed to write has
    replaced the content of its input file: read through either path, the
    file now holds the encoded result. *)
Theorem output_linked_to_input_overwrites_it `{cv : OpenCV}
    (path_in path_out : string) (w w' : World) :
  resolve (fs w) (out_path_of path_in path_out) = resolve (fs w) path_in →
  can_open_for_write (fs w) (out_path_of path_in path_out) = true →
  process_image path_in path_out w = (Ok tt, w') →
  ∃ bytes img den sh png,
    fs w !! path_in = Some bytes
    ∧ imdecode bytes IMREAD_COLOR = Some img
    ∧ bilateralFilter img 9 75 75 = Ok den
    ∧ (unsharp_mask den py_1_0 3 w).1 = Ok sh
    ∧ imencode ".png" sh = Ok png
    ∧ fs w' !! path_in = Some png
    ∧ fs w' !! out_path_of path_in path_out = Some png.
Proof.
  intros Hsame Hw Hrun.
  destruct (process_image_ok_inv _ _ _ _ Hrun)
    as (bytes & img & den & sh & png & Hf & Hd & Hden & Hsh & He & ->).
  exists bytes, img, den, sh, png.
  split; [exact Hf|]. split; [exact Hd|]. split; [exact Hden|].
  split; [by rewrite Hsh|]. split; [exact He|].
  unfold after_write. cbn [fs]. rewrite Hw. split.
  - apply fs_lookup_insert_same. by rewrite Hsame.
  - apply fs_lookup_insert_eq.
Qed.

Lemma output_linked_to_input_overwrites_it_witness :
  ∃ bytes img den sh png,
    fs toy_linked_world !! "/app/images/img-3.jpg"%string = Some bytes
    ∧ imdecode (OpenCV := toy.opencv) bytes IMREAD_COLOR = Some img
    ∧ bilateralFilter (OpenCV := toy.opencv) img 9 75 75 = Ok den
    ∧ (unsharp_mask (cv := toy.opencv) den py_1_0 3 toy_linked_world).1 = Ok sh
    ∧ imencode (OpenCV := toy.opencv) ".png" sh = Ok png
    ∧ fs (process_image (cv := toy.opencv)
            "/app/images/img-3.jpg" "/app/output" toy_linked_world).2
        !! "/app/images/img-3.jpg"%string = Some png
    ∧ fs (process_image (cv := toy.opencv)
            "/app/images/img-3.jpg" "/app/output" toy_linked_world).2
        !! out_path_of "/app/images/img-3.jpg" "/app/output" = Some png.
Proof.
  apply (output_linked_to_input_overwrites_it (cv := toy.opencv)
           "/app/images/img-3.jpg" "/app/output" toy_linked_world).
  - vm_compute. reflexivity.
  - vm_compute. reflexivity.
  - apply surjective_pairing_ok. vm_compute. reflexivity.
Defined.
